(** * ReitanMat1000: the ESP32-CAM still-image pipelines

    A shallow embedding of the two Python programs of the repository,

    - [esp32_capture_to_video.py], the fixed-cadence recorder
      ([fetch_jpeg], [pick_fourcc], [main]), and
    - [Esp32/fast_ipcam_still_stream.py], the live poller ([fetcher] and
      the consumer side of its single-slot queue),

    together with the properties the specification states about them.

    Conventions of the embedding.

    - Python floats (times, rates, durations) are idealised as exact
      rationals [Q]; Python ints are [Z].
    - Everything outside the local variables of a function lives in a
      [world]: the wall clock, the number of HTTP requests served so far,
      the shared [queue.Queue] object and the log of observable events.
    - The libraries the programs call but do not contain ([requests],
      [cv2], [pathlib], the camera itself) are gathered in a [platform]
      record that every program takes as its first argument.
    - Exceptions are the [Raise] outcome of the monad [M].
    - Time passes in [time.sleep] and during an HTTP exchange only; the
      rest of the code runs in no time. *)

From Stdlib Require Import ZArith QArith Qround Qabs Lqa Lia.
From Stdlib Require Import List Bool String Ascii.
From Equations Require Import Equations.
Import ListNotations.

Local Open Scope Z_scope.

(* ================================================================== *)
(** * Part I: the embedding                                            *)
(* ================================================================== *)

(** ** Python primitives *)

Module Py.

(** Exceptions that can occur in the two programs.  [RequestException]
    stands for the whole [requests.RequestException] family
    (connection errors, timeouts and the [HTTPError] of
    [raise_for_status]); [CvError] is [cv2.error]. *)
Inductive exn : Type :=
| RequestException
| CvError
| ValueError
| ZeroDivisionError
| QueueEmpty
| QueueFull.

Inductive outcome (A : Type) : Type :=
| Ret (a : A)
| Raise (e : exn).
Arguments Ret {A} a.
Arguments Raise {A} e.

(** [a < b] on floats, as a boolean. *)
Definition Qltb (a b : Q) : bool := negb (Qle_bool b a).

(** [max(a, b)]: the first argument unless the second is strictly
    greater. *)
Definition max (a b : Q) : Q := if Qltb a b then b else a.

(** [min(a, b)]: the first argument unless the second is strictly
    smaller. *)
Definition min (a b : Q) : Q := if Qltb b a then b else a.

(** [a / b] on floats: raises [ZeroDivisionError] on a zero divisor. *)
Definition div (a b : Q) : outcome Q :=
  if Qeq_bool b 0 then Raise ZeroDivisionError else Ret (a / b)%Q.

(** [int(round(x))]: rounding to the nearest integer, ties to even. *)
Definition round (x : Q) : Z :=
  let f := Qfloor x in
  let r := (x - inject_Z f)%Q in
  if Qltb r (1 # 2) then f
  else if Qltb (1 # 2) r then f + 1
  else if Z.even f then f else f + 1.

(** [range(a, b)] *)
Definition range (a b : Z) : list Z :=
  map (fun k => a + Z.of_nat k) (seq 0 (Z.to_nat (b - a))).

(** [str.lower()].  Strings are sequences of 8-bit characters; the
    letters [A]..[Z] are mapped to [a]..[z] and every other character is
    kept. *)
Definition lower_ascii (c : ascii) : ascii :=
  let n := nat_of_ascii c in
  if andb (Nat.leb 65 n) (Nat.leb n 90) then ascii_of_nat (n + 32) else c.

Fixpoint lower (s : string) : string :=
  match s with
  | EmptyString => EmptyString
  | String c s' => String (lower_ascii c) (lower s')
  end.

End Py.

Import Py.

(** ** [cv2.VideoWriter_fourcc] and [pick_fourcc] *)

(** [cv2.VideoWriter_fourcc(c1, c2, c3, c4)] packs four characters into a
    little-endian 32-bit code. *)
Definition VideoWriter_fourcc (c1 c2 c3 c4 : ascii) : Z :=
  let b c := Z.land (Z.of_nat (nat_of_ascii c)) 255 in
  Z.lor (Z.lor (b c1) (Z.shiftl (b c2) 8))
        (Z.lor (Z.shiftl (b c3) 16) (Z.shiftl (b c4) 24)).

Definition pick_fourcc (codec : string) : Z :=
  let codec := lower codec in
  if String.eqb codec "mp4v" then VideoWriter_fourcc "m" "p" "4" "v"
  else if String.eqb codec "xvid" then VideoWriter_fourcc "X" "V" "I" "D"
  else if orb (String.eqb codec "mjpg") (String.eqb codec "mjpeg")
       then VideoWriter_fourcc "M" "J" "P" "G"
  else (* default *) VideoWriter_fourcc "m" "p" "4" "v".

(** The two alphabets, letter under letter.  The program never uses
    them: they say what "in any letter case" means in the statement
    about [pick_fourcc]. *)
Definition lower_letters : string := "abcdefghijklmnopqrstuvwxyz".
Definition upper_letters : string := "ABCDEFGHIJKLMNOPQRSTUVWXYZ".

(** The character that stands in [to] where [c] stands in [from];
    [c] itself when it does not occur in [from]. *)
Fixpoint paired (c : ascii) (from to : string) : ascii :=
  match from, to with
  | String a from', String b to' =>
      if Ascii.eqb c a then b else paired c from' to'
  | _, _ => c
  end.

(** The upper-case form of a lower-case letter; every other character
    is its own. *)
Definition upper_of (c : ascii) : ascii :=
  paired c lower_letters upper_letters.

(** [c] is the character [lit] of a lower-case word, in either case. *)
Definition same_letter (lit c : ascii) : bool :=
  orb (Ascii.eqb c lit) (Ascii.eqb c (upper_of lit)).

(** [s] spells the lower-case word [lit], each letter in either case. *)
Fixpoint spelled (lit s : string) : bool :=
  match lit, s with
  | EmptyString, EmptyString => true
  | String a lit', String c s' => andb (same_letter a c) (spelled lit' s')
  | _, _ => false
  end.

(** The characters of the four codec names. *)
Definition codec_letter (a : ascii) : bool :=
  existsb (Ascii.eqb a)
          ["m"; "p"; "4"; "v"; "x"; "i"; "d"; "j"; "g"; "e"]%char.

(** A word made of such characters. *)
Fixpoint codec_word (lit : string) : bool :=
  match lit with
  | EmptyString => true
  | String a lit' => andb (codec_letter a) (codec_word lit')
  end.

(** ** The pacing period of the live poller

    [period = 1.0 / max(0.1, target_fps)], line 32 of
    [fast_ipcam_still_stream.py]. *)
Definition fetcher_period (target_fps : Q) : outcome Q :=
  Py.div 1 (Py.max (1 # 10) target_fps).

(** ** Data model *)

(** A decoded image, as [cv2.imdecode] returns it: a [numpy] array of
    [uint8] whose [shape] starts with (rows, columns). *)
Record ndarray : Type := mk_ndarray {
  rows : Z;
  cols : Z;
  data : list Byte.byte
}.

(** The [timeout] argument of [requests]: one number, or a
    (connect, read) pair. *)
Inductive timeout_arg : Type :=
| TimeoutOne (t : Q)
| TimeoutPair (connect read : Q).

(** What one HTTP GET does: it takes [latency] seconds and then either
    fails in transport (connection error, timeout) or delivers a response
    with a status code and a body. *)
Inductive http_reply : Type :=
| TransportError
| Response (status_code : Z) (content : list Byte.byte).

Record exchange : Type := mk_exchange {
  latency : Q;
  reply : http_reply
}.

(** What [cv2.imdecode] does with a buffer. *)
Inductive decode_reply : Type :=
| DecodeRaises
| DecodeNone
| Decoded (frame : ndarray).

(** The external collaborators.
    - [net url timeout k] is the [k]-th GET issued by the program;
    - [imdecode] is [cv2.imdecode(_, cv2.IMREAD_COLOR)];
    - [cv2_resize f (w, h)] is [cv2.resize(f, (w, h), ...)], [None] when
      it raises [cv2.error];
    - [parse_wh s] is [w_str, h_str = s.split("x"); int(w_str), int(h_str)],
      [None] when any exception is raised;
    - [path_suffix] is [pathlib.Path(_).suffix];
    - [writer_opens path fourcc fps size] is what [isOpened()] answers
      for the [cv2.VideoWriter] built from these arguments. *)
Record platform : Type := mk_platform {
  net : string -> timeout_arg -> nat -> exchange;
  imdecode : list Byte.byte -> decode_reply;
  cv2_resize : ndarray -> Z * Z -> option ndarray;
  parse_wh : string -> option (Z * Z);
  path_suffix : string -> string;
  writer_opens : string -> Z -> Q -> Z * Z -> bool
}.

(** [queue.Queue(maxsize)]: a FIFO of frames; [maxsize <= 0] means
    unbounded. *)
Record Queue : Type := mk_Queue {
  maxsize : Z;
  items : list ndarray
}.

(** Messages the recorder prints. *)
Inductive message : Type :=
| MsgFetchingFirst (url : string)
| MsgErrFirstFrame
| MsgErrResize
| MsgNoteAvi
| MsgErrWriter
| MsgWriting (total_frames : Z) (fps : Q) (out : string) (size : Z * Z)
             (codec : string)
| MsgFetchFailed (i : Z)
| MsgFetchOk (i : Z) (dt : Q)
| MsgDone (total_frames : Z) (elapsed : Q) (out : string).

(** Where a [time.sleep] is called from. *)
Inductive sleep_site : Type :=
| RecorderTick   (* esp32_capture_to_video.py, line 122 *)
| PollerPace     (* fast_ipcam_still_stream.py, line 40 *)
| PollerBackoff. (* fast_ipcam_still_stream.py, line 64 *)

(** Observable events, in the order they happen. *)
Inductive event : Type :=
| EvPrint (m : message)
| EvGet (url : string) (t : timeout_arg) (started : Q)
| EvOpen (path : string) (fourcc : Z) (fps : Q) (size : Z * Z)
| EvWrite (frame : ndarray)
| EvRelease
| EvSleep (site : sleep_site) (seconds : Q).

(** The state outside a function's local variables.  [log] is kept newest
    first; [history] gives it in chronological order. *)
Record world : Type := mk_world {
  clock : Q;
  served : nat;
  queue : Queue;
  log : list event
}.

Definition history (w : world) : list event := rev (log w).

(** The world a program starts in at time [t0], with a fresh
    [queue.Queue(maxsize=1)] (line 79 of the live poller). *)
Definition boot (t0 : Q) : world :=
  {| clock := t0; served := 0%nat;
     queue := {| maxsize := 1; items := [] |}; log := [] |}.

(** ** The state-and-exception monad *)

Definition M (A : Type) : Type := world -> outcome A * world.

Definition ret {A : Type} (a : A) : M A := fun w => (Ret a, w).

Definition raise {A : Type} (e : exn) : M A := fun w => (Raise e, w).

Definition bind {A B : Type} (m : M A) (k : A -> M B) : M B :=
  fun w =>
    match m w with
    | (Ret a, w') => k a w'
    | (Raise e, w') => (Raise e, w')
    end.

(** [try: m  except <catches>: handler] *)
Definition try_except {A : Type} (m : M A) (catches : exn -> bool)
  (handler : M A) : M A :=
  fun w =>
    match m w with
    | (Ret a, w') => (Ret a, w')
    | (Raise e, w') => if catches e then handler w' else (Raise e, w')
    end.

Definition lift {A : Type} (o : outcome A) : M A := fun w => (o, w).

Declare Scope py_scope.
Delimit Scope py_scope with py.
Notation "x <- m ;; k" := (bind m (fun x => k))
  (at level 100, m at next level, right associativity) : py_scope.
Notation "m ;; k" := (bind m (fun _ => k))
  (at level 100, right associativity) : py_scope.
Local Open Scope py_scope.

Definition when (b : bool) (m : M unit) : M unit :=
  if b then m else ret tt.

(** [for x in xs: st = body(st, x)] *)
Fixpoint for_each {S X : Type} (xs : list X) (body : S -> X -> M S)
  (st : S) : M S :=
  match xs with
  | [] => ret st
  | x :: xs' => st' <- body st x ;; for_each xs' body st'
  end.

(** ** Primitive effects *)

Definition emit (e : event) : M unit :=
  fun w => (Ret tt, {| clock := clock w; served := served w;
                       queue := queue w; log := e :: log w |}).

Definition print (m : message) : M unit := emit (EvPrint m).

(** [time.time()] and [time.perf_counter()] both read the clock. *)
Definition time_now : M Q := fun w => (Ret (clock w), w).

(** [time.sleep(d)]: the clock advances by [d]. *)
Definition sleep (site : sleep_site) (d : Q) : M unit :=
  fun w => (Ret tt, {| clock := (clock w + d)%Q; served := served w;
                       queue := queue w;
                       log := EvSleep site d :: log w |}).

(** [requests.get(url, timeout=t)] / [session.get(url, timeout=t)]: the
    request is logged with its start time, the clock advances by the
    latency of the exchange, and a transport error is raised as a
    [RequestException]. *)
Definition requests_get (P : platform) (url : string) (t : timeout_arg)
  : M (Z * list Byte.byte) :=
  fun w =>
    let x := net P url t (served w) in
    let w' := {| clock := (clock w + latency x)%Q;
                 served := S (served w);
                 queue := queue w;
                 log := EvGet url t (clock w) :: log w |} in
    match reply x with
    | TransportError => (Raise RequestException, w')
    | Response code body => (Ret (code, body), w')
    end.

(** [r.raise_for_status()]: [HTTPError] for the 4xx and 5xx codes. *)
Definition raise_for_status (r : Z * list Byte.byte) : M unit :=
  let code := fst r in
  if andb (400 <=? code) (code <? 600) then raise RequestException
  else ret tt.

(** [cv2.imdecode(np.frombuffer(body, dtype=np.uint8), cv2.IMREAD_COLOR)] *)
Definition cv2_imdecode (P : platform) (body : list Byte.byte)
  : M (option ndarray) :=
  match imdecode P body with
  | DecodeRaises => raise CvError
  | DecodeNone => ret None
  | Decoded f => ret (Some f)
  end.

Definition is_RequestException (e : exn) : bool :=
  match e with RequestException => true | _ => false end.

Definition is_QueueEmpty (e : exn) : bool :=
  match e with QueueEmpty => true | _ => false end.

(** [except Exception]: every exception of the model is one. *)
Definition is_Exception (e : exn) : bool := true.

(** ** The recorder: [esp32_capture_to_video.py] *)

(** [fetch_jpeg(url, timeout)], lines 9-22.  Only
    [requests.RequestException] is caught. *)
Definition fetch_jpeg (P : platform) (url : string) (timeout : Q)
  : M (option ndarray) :=
  try_except
    (r <- requests_get P url (TimeoutOne timeout) ;;
     raise_for_status r ;;
     frame <- cv2_imdecode P (snd r) ;;
     match frame with
     | None => ret None
     | Some frame => ret (Some frame)
     end)
    is_RequestException
    (ret None).

(** The command line of the recorder, after [argparse]. *)
Record recorder_args : Type := mk_recorder_args {
  url : string;
  fps : Q;
  seconds : Q;
  out : string;
  codec : string;
  timeout : Q;
  resize : string;
  verbose : bool
}.

(** The variables the timing loop updates. *)
Record tick_state : Type := mk_tick_state {
  next_tick : Q;
  last_good : ndarray;
  frame_to_write : ndarray
}.

Definition size_eqb (a b : Z * Z) : bool :=
  andb (fst a =? fst b) (snd a =? snd b).

(** [cv2.resize(frame, size, interpolation=cv2.INTER_LINEAR)] *)
Definition resize_to (P : platform) (frame : ndarray) (size : Z * Z)
  : M ndarray :=
  match cv2_resize P frame size with
  | Some g => ret g
  | None => raise CvError
  end.

(** The body of [for i in range(1, total_frames)], lines 96-123. *)
Definition tick (P : platform) (args : recorder_args) (frame_size : Z * Z)
  (start : Q) (st : tick_state) (i : Z) : M tick_state :=
  step <- lift (Py.div 1 (fps args)) ;;
  let next_tick' := (next_tick st + step)%Q in
  frame <- fetch_jpeg P (url args) (timeout args) ;;
  st' <- match frame with
         | None =>
             when (verbose args) (print (MsgFetchFailed i)) ;;
             ret {| next_tick := next_tick';
                    last_good := last_good st;
                    frame_to_write := last_good st |}
         | Some frame =>
             frame <- (if negb (size_eqb frame_size (cols frame, rows frame))
                       then resize_to P frame frame_size
                       else ret frame) ;;
             when (verbose args)
                  (now <- time_now ;;
                   print (MsgFetchOk i (now - start)%Q)) ;;
             ret {| next_tick := next_tick';
                    last_good := frame;
                    frame_to_write := frame |}
         end ;;
  emit (EvWrite (frame_to_write st')) ;;
  now <- time_now ;;
  let sleep_s := (next_tick st' - now)%Q in
  when (Qltb 0 sleep_s) (sleep RecorderTick sleep_s) ;;
  ret st'.

(** Lines 71-127 of [main]: open the writer, write frame 0, run the
    timing loop, release.  [out_path] stands for both [Path(args.out)]
    and its [str]. *)
Definition main_session (P : platform) (args : recorder_args)
  (frame_size : Z * Z) (frame_to_write0 : ndarray) : M unit :=
  let out_path := out args in
  let fourcc := pick_fourcc (codec args) in
  when (andb (orb (String.eqb (codec args) "mjpg")
                  (String.eqb (codec args) "xvid"))
             (negb (String.eqb (lower (path_suffix P out_path)) ".avi")))
       (print MsgNoteAvi) ;;
  emit (EvOpen out_path fourcc (fps args) frame_size) ;;
  if negb (writer_opens P out_path fourcc (fps args) frame_size)
  then print MsgErrWriter
  else
    let total_frames := Py.round (seconds args * fps args)%Q in
    print (MsgWriting total_frames (fps args) out_path frame_size
                      (codec args)) ;;
    start <- time_now ;;
    let st0 := {| next_tick := start;
                  last_good := frame_to_write0;
                  frame_to_write := frame_to_write0 |} in
    emit (EvWrite frame_to_write0) ;;
    _ <- for_each (Py.range 1 total_frames)
                  (tick P args frame_size start) st0 ;;
    emit EvRelease ;;
    now <- time_now ;;
    print (MsgDone total_frames (now - start)%Q out_path).

(** [main()], lines 49-69, continued by [main_session]. *)
Definition main (P : platform) (args : recorder_args) : M unit :=
  print (MsgFetchingFirst (url args)) ;;
  first <- fetch_jpeg P (url args) (timeout args) ;;
  match first with
  | None => print MsgErrFirstFrame
  | Some first =>
      if negb (String.eqb (resize args) "") then
        match parse_wh P (lower (resize args)) with
        | None => print MsgErrResize
        | Some (out_w, out_h) =>
            let frame_size := (out_w, out_h) in
            frame_to_write <- resize_to P first frame_size ;;
            main_session P args frame_size frame_to_write
        end
      else
        let frame_size := (cols first, rows first) in
        main_session P args frame_size first
  end.

(** ** Reading the log *)

(** The events of a history that [sel] selects, in order. *)
Fixpoint pick {A : Type} (sel : event -> option A) (h : list event)
  : list A :=
  match h with
  | [] => []
  | e :: h' =>
      match sel e with
      | Some a => a :: pick sel h'
      | None => pick sel h'
      end
  end.

Definition is_write (e : event) : option ndarray :=
  match e with EvWrite f => Some f | _ => None end.

Definition is_open (e : event) : option (Z * Z) :=
  match e with EvOpen _ _ _ size => Some size | _ => None end.

Definition is_get (e : event) : option Q :=
  match e with EvGet _ _ t => Some t | _ => None end.

Definition is_print (e : event) : option message :=
  match e with EvPrint m => Some m | _ => None end.

Definition site_eqb (a b : sleep_site) : bool :=
  match a, b with
  | RecorderTick, RecorderTick => true
  | PollerPace, PollerPace => true
  | PollerBackoff, PollerBackoff => true
  | _, _ => false
  end.

Definition is_sleep (site : sleep_site) (e : event) : option Q :=
  match e with
  | EvSleep s d => if site_eqb s site then Some d else None
  | _ => None
  end.

(** The frames handed to [writer.write], oldest first. *)
Definition written (w : world) : list ndarray := pick is_write (history w).

(** The sizes the writer was opened with. *)
Definition opened (w : world) : list (Z * Z) := pick is_open (history w).

(** The start times of the GET requests, oldest first. *)
Definition requested (w : world) : list Q := pick is_get (history w).

(** The diagnostics printed. *)
Definition printed (w : world) : list message := pick is_print (history w).

(** The durations slept at a given call site, oldest first. *)
Definition slept (site : sleep_site) (w : world) : list Q :=
  pick (is_sleep site) (history w).

(** ** The live poller: [Esp32/fast_ipcam_still_stream.py] *)

Definition set_items (w : world) (l : list ndarray) : world :=
  {| clock := clock w; served := served w;
     queue := {| maxsize := maxsize (queue w); items := l |};
     log := log w |}.

(** [out_q.get_nowait()]: takes the oldest item, raises [queue.Empty] on
    an empty queue. *)
Definition get_nowait : M ndarray :=
  fun w =>
    match items (queue w) with
    | [] => (Raise QueueEmpty, w)
    | x :: rest => (Ret x, set_items w rest)
    end.

(** [out_q.put_nowait(x)]: appends, raises [queue.Full] when a bounded
    queue already holds [maxsize] items. *)
Definition put_nowait (x : ndarray) : M unit :=
  fun w =>
    let q := queue w in
    if andb (0 <? maxsize q) (maxsize q <=? Z.of_nat (List.length (items q)))
    then (Raise QueueFull, w)
    else (Ret tt, set_items w (items q ++ [x])%list).

Definition inspect {A : Type} (a : A) : {b : A | a = b} :=
  exist _ a eq_refl.

Lemma get_nowait_shrinks (w w' : world) (x : ndarray) :
  get_nowait w = (Ret x, w') ->
  (List.length (items (queue w')) < List.length (items (queue w)))%nat.
Proof.
  unfold get_nowait. destruct (items (queue w)) as [|y rest] eqn:E.
  - discriminate.
  - intros H. injection H as _ <-. simpl. lia.
Qed.

(** [while True: out_q.get_nowait()], lines 55-56: the loop can only be
    left by an exception. *)
Equations drain_loop (w : world) : outcome unit * world
  by wf (List.length (items (queue w))) lt :=
  drain_loop w with inspect (get_nowait w) := {
    | exist _ (Ret x, w') H => drain_loop w'
    | exist _ (Raise e, w') _ => (Raise e, w') }.
Next Obligation.
  eapply get_nowait_shrinks; eassumption.
Qed.

(** Lines 53-59: drop whatever the queue holds, then put the new frame. *)
Definition publish (frame : ndarray) : M unit :=
  try_except drain_loop is_QueueEmpty (ret tt) ;;
  put_nowait frame.

(** The local variables of [fetcher] that its loop updates. *)
Record fetcher_state : Type := mk_fetcher_state {
  t_next : Q;
  backoff : Q
}.

(** One pass through the body of [while not stop_evt.is_set()],
    lines 37-64. *)
Definition fetcher_iteration (P : platform) (url : string)
  (connect_timeout read_timeout period : Q) (st : fetcher_state)
  : M fetcher_state :=
  now <- time_now ;;
  if Qltb now (t_next st) then
    sleep PollerPace (Py.min (2 # 1000) (t_next st - now)%Q) ;;
    ret st
  else
    let t_next' := (t_next st + period)%Q in
    try_except
      (r <- requests_get P url (TimeoutPair connect_timeout read_timeout) ;;
       raise_for_status r ;;
       frame <- cv2_imdecode P (snd r) ;;
       match frame with
       | None => raise ValueError
       | Some frame =>
           publish frame ;;
           ret {| t_next := t_next'; backoff := 0 |}
       end)
      is_Exception
      (let backoff' := Py.min (1 # 2) (backoff st + (5 # 100))%Q in
       sleep PollerBackoff backoff' ;;
       ret {| t_next := t_next'; backoff := backoff' |}).

(** [n] passes through the loop body. *)
Fixpoint fetcher_loop (P : platform) (url : string)
  (connect_timeout read_timeout period : Q) (n : nat) (st : fetcher_state)
  : M fetcher_state :=
  match n with
  | O => ret st
  | S n' =>
      st' <- fetcher_iteration P url connect_timeout read_timeout period st ;;
      fetcher_loop P url connect_timeout read_timeout period n' st'
  end.

(** [fetcher(url, out_q, stop_evt, connect_timeout, read_timeout,
    target_fps)], where [passes] is the number of times
    [stop_evt.is_set()] answers [False] before the main thread sets it. *)
Definition fetcher (P : platform) (url : string) (passes : nat)
  (connect_timeout read_timeout target_fps : Q) : M fetcher_state :=
  period <- lift (fetcher_period target_fps) ;;
  t_next0 <- time_now ;;
  fetcher_loop P url connect_timeout read_timeout period passes
               {| t_next := t_next0; backoff := 0 |}.

(** The consumer side, lines 90-94:
    [try: frame = q.get(timeout=0.2)  except queue.Empty: frame = None],
    at the instant the wait ends. *)
Definition poll : M (option ndarray) :=
  try_except (frame <- get_nowait ;; ret (Some frame))
             is_QueueEmpty
             (ret None).

(** The operations the two threads perform on the shared queue. *)
Inductive queue_op : Type :=
| OpPublish (frame : ndarray)   (* producer, lines 53-59 *)
| OpGetNowait                   (* producer, line 56 alone *)
| OpPutNowait (frame : ndarray) (* producer, line 59 alone *)
| OpPoll.                       (* consumer, line 92 *)

Definition run_op (o : queue_op) (w : world) : world :=
  match o with
  | OpPublish f => snd (publish f w)
  | OpGetNowait => snd (get_nowait w)
  | OpPutNowait f => snd (put_nowait f w)
  | OpPoll => snd (poll w)
  end.

Definition run_ops (os : list queue_op) (w : world) : world :=
  fold_left (fun w o => run_op o w) os w.

(** ** The live viewer: [main] of [fast_ipcam_still_stream.py]

    The consumer loop of lines 85-119.  What one pass of the loop reads
    from its surroundings is gathered in a [viewer_input]: the result of
    [q.get(timeout=0.2)] ([None] for [queue.Empty]), the value of
    [time.time()] at line 102 and the value of [cv2.waitKey(1)].
    [put_text f fps] is the frame [f] after
    [cv2.putText(f, f"{fps:.1f} FPS", ...)] has drawn on it. *)

Record viewer_args : Type := mk_viewer_args {
  window : string;
  show_fps : bool;
  resize_width : Z
}.

Record viewer_state : Type := mk_viewer_state {
  ema_fps : option Q;
  t_prev : Q
}.

Record viewer_input : Type := mk_viewer_input {
  in_frame : option ndarray;
  in_now : Q;
  in_key : Z
}.

(** [int(x)] on a float: truncation towards zero. *)
Definition int_of_float (x : Q) : Z :=
  if Qle_bool 0 x then Qfloor x else Qceiling x.

Definition and_then {A B : Type} (o : outcome A) (k : A -> outcome B)
  : outcome B :=
  match o with
  | Ret a => k a
  | Raise e => Raise e
  end.

(** Lines 97-99: a frame wider than a non-zero [--resize_width] is
    resized to that width and to the height
    [int(rows * resize_width / cols)]. *)
Definition fit_to_width (P : platform) (args : viewer_args)
  (frame : ndarray) : outcome ndarray :=
  if andb (negb (resize_width args =? 0))
          (resize_width args <? cols frame)
  then
    and_then (Py.div (inject_Z (rows frame * resize_width args))
                     (inject_Z (cols frame)))
      (fun h =>
         match cv2_resize P frame (resize_width args, int_of_float h) with
         | Some g => Ret g
         | None => Raise CvError
         end)
  else Ret frame.

(** Lines 101-107: the smoothed frame rate and its overlay. *)
Definition overlay_fps (put_text : ndarray -> Q -> ndarray)
  (st : viewer_state) (now : Q) (frame : ndarray)
  : outcome (viewer_state * ndarray) :=
  and_then (Py.div 1 (Py.max (now - t_prev st) (1 # 1000000)))
    (fun inst =>
       let ema := match ema_fps st with
                  | None => inst
                  | Some e => ((9 # 10) * e + (1 # 10) * inst)%Q
                  end in
       Ret ({| ema_fps := Some ema; t_prev := now |}, put_text frame ema)).

(** One pass through the body of [while True], lines 90-114: the new
    state, the frame handed to [cv2.imshow] if any, and whether the loop
    breaks. *)
Definition viewer_iteration (P : platform)
  (put_text : ndarray -> Q -> ndarray) (args : viewer_args)
  (st : viewer_state) (inp : viewer_input)
  : outcome (viewer_state * option ndarray * bool) :=
  and_then
    (match in_frame inp with
     | None => Ret (st, None)
     | Some frame =>
         and_then (fit_to_width P args frame) (fun frame =>
         and_then (if show_fps args
                   then overlay_fps put_text st (in_now inp) frame
                   else Ret (st, frame)) (fun sf =>
         Ret (fst sf, Some (snd sf))))
     end)
    (fun ss =>
       let key := Z.land (in_key inp) 255 in
       Ret (fst ss, snd ss, orb (key =? 113) (key =? 27))).

(** How the loop stands after the inputs given: it broke on a key, it
    is still running, or an exception ended it. *)
Inductive viewer_end : Type :=
| Quit
| Running
| Crashed (e : exn).

(** The loop over the inputs of successive passes: how it ends, the
    frames shown in order, and the last state. *)
Fixpoint viewer_loop (P : platform) (put_text : ndarray -> Q -> ndarray)
  (args : viewer_args) (inputs : list viewer_input) (st : viewer_state)
  : viewer_end * list ndarray * viewer_state :=
  match inputs with
  | [] => (Running, [], st)
  | inp :: rest =>
      match viewer_iteration P put_text args st inp with
      | Raise e => (Crashed e, [], st)
      | Ret (st', shown, quit) =>
          let now_shown := match shown with Some f => [f] | None => [] end in
          if quit then (Quit, now_shown, st')
          else
            let r := viewer_loop P put_text args rest st' in
            (fst (fst r), (now_shown ++ snd (fst r))%list, snd r)
      end
  end.

(** Lines 85-119 as a whole: [t_prev = time.time()], the loop, and the
    [finally] clause, which sets the stop event once the loop is left. *)
Definition viewer_main (P : platform) (put_text : ndarray -> Q -> ndarray)
  (args : viewer_args) (t_start : Q) (inputs : list viewer_input)
  : viewer_end * list ndarray * viewer_state * bool :=
  let r := viewer_loop P put_text args inputs
                       {| ema_fps := None; t_prev := t_start |} in
  (r, match fst (fst r) with Running => false | _ => true end).

Definition screen (r : viewer_end * list ndarray * viewer_state * bool)
  : list ndarray := snd (fst (fst r)).

Definition ending (r : viewer_end * list ndarray * viewer_state * bool)
  : viewer_end := fst (fst (fst r)).

Definition final_state (r : viewer_end * list ndarray * viewer_state * bool)
  : viewer_state := snd (fst r).

Definition stop_evt_set (r : viewer_end * list ndarray * viewer_state * bool)
  : bool := snd r.

(** ** Vocabulary of the statements

    The definitions below are not called by the programs; the properties
    of Part II are phrased with them. *)

(** The world right after one GET: the request is logged, the clock has
    advanced by the latency of the exchange. *)
Definition got (P : platform) (url : string) (t : timeout_arg) (w : world)
  : world :=
  {| clock := (clock w + latency (net P url t (served w)))%Q;
     served := S (served w);
     queue := queue w;
     log := EvGet url t (clock w) :: log w |}.

(** The fetch outcomes of the specification: [Ret (Some f)] is
    Success(f), [Ret None] is Failure, and [Raise e] is an exception
    leaving [fetch_jpeg].  [jpeg_outcome P x] is what the exchange [x]
    amounts to (see [fetch_jpeg_run]). *)
Definition jpeg_outcome (P : platform) (x : exchange)
  : outcome (option ndarray) :=
  match reply x with
  | TransportError => Ret None
  | Response code body =>
      if andb (400 <=? code) (code <? 600) then Ret None
      else match imdecode P body with
           | DecodeRaises => Raise CvError
           | DecodeNone => Ret None
           | Decoded f => Ret (Some f)
           end
  end.

(** The outcome of the recorder's [k]-th fetch; fetch 0 is the first
    frame, fetch [i] belongs to tick [i]. *)
Definition fetch_outcome (P : platform) (args : recorder_args) (k : nat)
  : outcome (option ndarray) :=
  jpeg_outcome P (net P (url args) (TimeoutOne (timeout args)) k).

(** (columns, rows) of a frame, the order of [frame_size]. *)
Definition size_of (f : ndarray) : Z * Z := (cols f, rows f).

(** What a successful fetch [f] becomes before it is written: itself, or
    its resize to [frame_size] when the sizes differ. *)
Definition fitted (P : platform) (frame_size : Z * Z) (f g : ndarray)
  : Prop :=
  if size_eqb frame_size (size_of f) then g = f
  else cv2_resize P f frame_size = Some g.

(** [frozen P size prev outcomes ws]: [ws] are the frames of consecutive
    ticks with the given fetch outcomes, when [prev] was the frame written
    just before them. *)
Inductive frozen (P : platform) (frame_size : Z * Z)
  : ndarray -> list (outcome (option ndarray)) -> list ndarray -> Prop :=
| frozen_nil (prev : ndarray) (os : list (outcome (option ndarray))) :
    frozen P frame_size prev os []
| frozen_failure (prev : ndarray) os ws :
    frozen P frame_size prev os ws ->
    frozen P frame_size prev (Ret None :: os) (prev :: ws)
| frozen_success (prev f g : ndarray) os ws :
    fitted P frame_size f g ->
    frozen P frame_size g os ws ->
    frozen P frame_size prev (Ret (Some f) :: os) (g :: ws).

(** The outcomes of the fetches [k], [k+1], ..., [k+n-1]. *)
Definition outcomes (P : platform) (args : recorder_args) (k n : nat)
  : list (outcome (option ndarray)) :=
  map (fetch_outcome P args) (seq k n).

(** How the first frame fixes the output size and frame 0, lines 56-69:
    without [--resize] the first frame as it is, with it the first frame
    resized to the parsed size. *)
Definition session_start (P : platform) (args : recorder_args)
  (first : ndarray) (frame_size : Z * Z) (frame0 : ndarray) : Prop :=
  (resize args = ""%string /\
   frame_size = size_of first /\ frame0 = first) \/
  (resize args <> ""%string /\
   parse_wh P (lower (resize args)) = Some frame_size /\
   cv2_resize P first frame_size = Some frame0).

(** The number of frames the recorder announces:
    [total_frames = int(round(args.seconds * args.fps))]. *)
Definition total_frames (args : recorder_args) : Z :=
  Py.round (seconds args * fps args)%Q.

(** The three ways a tick can end in an exception: the division
    [1.0 / args.fps], an exception leaving [fetch_jpeg], or [cv2.resize]
    raising on a fetched frame of another size. *)
Definition tick_fails (P : platform) (args : recorder_args)
  (frame_size : Z * Z) (o : outcome (option ndarray)) : Prop :=
  Qeq_bool (fps args) 0 = true \/
  (exists e, o = Raise e) \/
  (exists f, o = Ret (Some f) /\
             size_eqb frame_size (size_of f) = false /\
             cv2_resize P f frame_size = None).

(** The outcome of the live poller's [k]-th fetch. *)
Definition poller_outcome (P : platform) (url : string)
  (connect_timeout read_timeout : Q) (k : nat)
  : outcome (option ndarray) :=
  jpeg_outcome P (net P url (TimeoutPair connect_timeout read_timeout) k).

(** The number of GET requests started in the window [a <= t < b]. *)
Definition attempts_within (w : world) (a b : Q) : nat :=
  List.length
    (filter (fun t => andb (Qle_bool a t) (Qltb t b)) (requested w)).

(** "Within one unit of R*W". *)
Definition within_one_unit (count : nat) (R W : Q) : Prop :=
  (Qabs (inject_Z (Z.of_nat count) - R * W) <= 1)%Q.

Definition is_success (o : outcome (option ndarray)) : bool :=
  match o with Ret (Some _) => true | _ => false end.

(** The state in which [fetcher] enters its loop at time [t0]. *)
Definition fetcher_start (t0 : Q) : fetcher_state :=
  {| t_next := t0; backoff := 0 |}.

(** The shared queue is the single-slot queue of line 79 and holds at
    most one frame. *)
Definition single_slot (w : world) : Prop :=
  maxsize (queue w) = 1 /\ (List.length (items (queue w)) <= 1)%nat.

(** What holds between the passes of the poller's loop that started at
    time [t0]: the backoff stays within its cap, [t_next] is the start
    time plus one period per fetch issued, and no fetch was issued before
    its due time. *)
Definition paced (t0 period : Q) (st : fetcher_state) (w : world) : Prop :=
  (0 <= backoff st)%Q /\ (backoff st <= 1 # 2)%Q /\
  (t_next st ==
   t0 + inject_Z (Z.of_nat (List.length (requested w))) * period)%Q /\
  forall (k : nat) (t : Q),
    nth_error (requested w) k = Some t ->
    (t0 + inject_Z (Z.of_nat k) * period <= t)%Q.

(** The first [n] fetches of the poller all succeed, and none takes
    longer than one period. *)
Definition quick (P : platform) (url : string)
  (connect_timeout read_timeout period : Q) (n : nat) : Prop :=
  forall k : nat, (k < n)%nat ->
    is_success (poller_outcome P url connect_timeout read_timeout k) = true /\
    (latency (net P url (TimeoutPair connect_timeout read_timeout) k)
     <= period)%Q.

(** What holds between the passes of a poller whose fetches are quick:
    the clock has not passed the due time, and every fetch so far started
    exactly on its due time. *)
Definition on_time (t0 period : Q) (st : fetcher_state) (w : world) : Prop :=
  (clock w <= t_next st)%Q /\
  served w = List.length (requested w) /\
  (t_next st ==
   t0 + inject_Z (Z.of_nat (List.length (requested w))) * period)%Q /\
  forall (k : nat) (t : Q),
    nth_error (requested w) k = Some t ->
    (t == t0 + inject_Z (Z.of_nat k) * period)%Q.

(** The times of [l] are [c], [c + p], [c + 2p], ... *)
Definition spaced (c p : Q) (l : list Q) : Prop :=
  forall (k : nat) (t : Q),
    nth_error l k = Some t -> (t == c + inject_Z (Z.of_nat k) * p)%Q.

(** The events that reach the network or the video writer, without
    their arguments. *)
Inductive wire_kind : Type :=
| KGet
| KOpen
| KWrite
| KRelease.

Definition kind_of (e : event) : option wire_kind :=
  match e with
  | EvGet _ _ _ => Some KGet
  | EvOpen _ _ _ _ => Some KOpen
  | EvWrite _ => Some KWrite
  | EvRelease => Some KRelease
  | _ => None
  end.

(** What the camera and the writer see of a run, in order. *)
Definition wire (w : world) : list wire_kind := pick kind_of (history w).

(** [n] ticks: a fetch and a write each. *)
Definition ticks_wire (n : nat) : list wire_kind :=
  List.concat (repeat [KGet; KWrite] n).

(** The number of passes through the recorder's timing loop. *)
Definition tick_count (args : recorder_args) : nat :=
  Z.to_nat (total_frames args - 1).

(** The latency of the recorder's [k]-th fetch. *)
Definition fetch_latency (P : platform) (args : recorder_args) (k : nat)
  : Q :=
  latency (net P (url args) (TimeoutOne (timeout args)) k).

(** What a session that got past the first frame and the size
    leaves behind, when the loop started at time [start] (after the first
    fetch): the wire trace, the final message, and the elapsed time against
    the schedule. *)
Definition session_report (P : platform) (args : recorder_args)
  (start : Q) (frame_size : Z * Z) (r : outcome unit) (w' : world) : Prop :=
  (writer_opens P (out args) (pick_fourcc (codec args)) (fps args)
                frame_size = false /\
   r = Ret tt /\
   wire w' = [KGet; KOpen] /\
   exists ms, printed w' = (ms ++ [MsgErrWriter])%list) \/
  (writer_opens P (out args) (pick_fourcc (codec args)) (fps args)
                frame_size = true /\
   match r with
   | Ret _ =>
       wire w' =
         KGet :: KOpen :: KWrite
              :: (ticks_wire (tick_count args) ++ [KRelease])%list /\
       (exists ms,
           printed w' =
             (ms ++ [MsgDone (total_frames args) (clock w' - start)
                             (out args)])%list) /\
       (inject_Z (Z.of_nat (tick_count args)) * (1 / fps args)
        <= clock w' - start)%Q /\
       ((forall k : nat, (1 <= k <= tick_count args)%nat ->
           (fetch_latency P args k <= 1 / fps args)%Q) ->
        (clock w' - start ==
         inject_Z (Z.of_nat (tick_count args)) * (1 / fps args))%Q)
   | Raise e =>
       e = CvError /\
       exists m : nat,
         (m < tick_count args)%nat /\
         wire w' = KGet :: KOpen :: KWrite :: (ticks_wire m ++ [KGet])%list
   end).

(** The frame the poller's queue is expected to hold after [n] fetches
    when nobody consumes: the frame of the latest successful fetch, or
    nothing when none succeeded. *)
Fixpoint latest_success (P : platform) (url : string)
  (connect_timeout read_timeout : Q) (n : nat) : list ndarray :=
  match n with
  | O => []
  | S n' =>
      match poller_outcome P url connect_timeout read_timeout n' with
      | Ret (Some f) => [f]
      | _ => latest_success P url connect_timeout read_timeout n'
      end
  end.

(** The frames the consumer received from a sequence of queue
    operations, and the frames the producer got into the queue. *)
Fixpoint polled (os : list queue_op) (w : world) : list ndarray :=
  match os with
  | [] => []
  | o :: os' =>
      match o, fst (poll w) with
      | OpPoll, Ret (Some f) => f :: polled os' (run_op o w)
      | _, _ => polled os' (run_op o w)
      end
  end.

Fixpoint offered (os : list queue_op) (w : world) : list ndarray :=
  match os with
  | [] => []
  | o :: os' =>
      match o with
      | OpPublish f => f :: offered os' (run_op o w)
      | OpPutNowait f =>
          match fst (put_nowait f w) with
          | Ret _ => f :: offered os' (run_op o w)
          | Raise _ => offered os' (run_op o w)
          end
      | _ => offered os' (run_op o w)
      end
  end.

(** [subseq l1 l2]: [l1] is [l2] with some elements left out. *)
Inductive subseq {A : Type} : list A -> list A -> Prop :=
| subseq_nil : subseq [] []
| subseq_keep (x : A) (l1 l2 : list A) :
    subseq l1 l2 -> subseq (x :: l1) (x :: l2)
| subseq_drop (x : A) (l1 l2 : list A) :
    subseq l1 l2 -> subseq l1 (x :: l2).

(** A key code that ends the viewer: [q] or ESC in its low byte. *)
Definition quit_key (k : Z) : bool :=
  orb (k mod 256 =? 113) (k mod 256 =? 27).

(** The inputs up to and including the first one with a quit key. *)
Fixpoint until_quit (inputs : list viewer_input) : list viewer_input :=
  match inputs with
  | [] => []
  | inp :: rest =>
      if quit_key (in_key inp) then [inp] else inp :: until_quit rest
  end.

(** The frames among some inputs. *)
Fixpoint received (inputs : list viewer_input) : list ndarray :=
  match inputs with
  | [] => []
  | inp :: rest =>
      match in_frame inp with
      | Some f => f :: received rest
      | None => received rest
      end
  end.

(** [cv2.putText] draws on a frame without changing its shape. *)
Definition text_keeps_size (put_text : ndarray -> Q -> ndarray) : Prop :=
  forall (f : ndarray) (q : Q), size_of (put_text f q) = size_of f.

(** The smoothed frame rate, once there is one, is positive and at
    most a million. *)
Definition fps_estimate_ok (st : viewer_state) : Prop :=
  match ema_fps st with
  | None => True
  | Some e => (0 < e)%Q /\ (e <= 1000000)%Q
  end.

(** The contract of [cv2.resize]: when it returns, the result has the
    requested size. *)
Definition resize_contract (P : platform) : Prop :=
  forall (f g : ndarray) (size : Z * Z),
    cv2_resize P f size = Some g -> size_of g = size.

(** ** A laboratory platform

    Concrete collaborators on which the programs can be run: a scripted
    camera, a toy image codec and a resize that only relabels the shape.
    They are used to exhibit concrete runs. *)

Module Lab.

Import Init.Byte.

(** The body [ff r c p1 p2 ...] decodes to an [r] by [c] image with pixel
    bytes [p1 p2 ...]; the empty buffer makes the decoder raise (as
    [cv2.imdecode] does); any other buffer decodes to [None]. *)
Definition toy_imdecode (body : list Byte.byte) : decode_reply :=
  match body with
  | [] => DecodeRaises
  | xff :: r :: c :: px =>
      Decoded {| rows := Z.of_N (Byte.to_N r);
                 cols := Z.of_N (Byte.to_N c);
                 data := px |}
  | _ => DecodeNone
  end.

(** Resizing to a positive size relabels the shape, any other size
    raises. *)
Definition toy_resize (f : ndarray) (size : Z * Z) : option ndarray :=
  if andb (0 <? fst size) (0 <? snd size)
  then Some {| rows := snd size; cols := fst size; data := data f |}
  else None.

(** A resize option parser that knows two sizes. *)
Definition toy_parse_wh (s : string) : option (Z * Z) :=
  if String.eqb s "4x3" then Some (4, 3)
  else if String.eqb s "0x0" then Some (0, 0)
  else None.

(** The camera answers the [k]-th request with the [k]-th entry of
    [script], and with [otherwise] once the script is exhausted. *)
Definition platform_of (script : list exchange) (otherwise : exchange)
  : platform :=
  {| net := fun _ _ k => nth k script otherwise;
     imdecode := toy_imdecode;
     cv2_resize := toy_resize;
     parse_wh := toy_parse_wh;
     path_suffix := fun _ => ".mp4"%string;
     writer_opens := fun _ _ _ _ => true |}.

(** A 2x2 image with every pixel byte equal to [p], and its encoding. *)
Definition img (p : Byte.byte) : ndarray :=
  {| rows := 2; cols := 2; data := [p; p; p; p] |}.

Definition jpeg (p : Byte.byte) : list Byte.byte :=
  [xff; x02; x02; p; p; p; p].

(** A 1x3 image and its encoding. *)
Definition wide (p : Byte.byte) : ndarray :=
  {| rows := 1; cols := 3; data := [p; p; p] |}.

Definition wide_jpeg (p : Byte.byte) : list Byte.byte :=
  [xff; x01; x03; p; p; p].

(** Exchanges: a good answer, a timeout, an error status, an empty
    200 answer, an answer that is not an image. *)
Definition ok (dt : Q) (body : list Byte.byte) : exchange :=
  {| latency := dt; reply := Response 200 body |}.

Definition timed_out (dt : Q) : exchange :=
  {| latency := dt; reply := TransportError |}.

Definition status (dt : Q) (code : Z) : exchange :=
  {| latency := dt; reply := Response code [] |}.

Definition default_args : recorder_args :=
  {| url := "http://192.168.4.1/capture.jpg";
     fps := 10; seconds := 30; out := "capture.mp4"; codec := "mp4v";
     timeout := 3 # 2; resize := ""; verbose := false |}.

Definition with_length (a : recorder_args) (f s : Q) : recorder_args :=
  {| url := url a; fps := f; seconds := s; out := out a;
     codec := codec a; timeout := timeout a; resize := resize a;
     verbose := verbose a |}.

Definition with_resize (a : recorder_args) (r : string) : recorder_args :=
  {| url := url a; fps := fps a; seconds := seconds a; out := out a;
     codec := codec a; timeout := timeout a; resize := r;
     verbose := verbose a |}.

End Lab.

(** More laboratory equipment: a platform whose video writer refuses to
    open. *)
Module Rig.

Definition with_closed_writer (P : platform) : platform :=
  {| net := net P;
     imdecode := imdecode P;
     cv2_resize := cv2_resize P;
     parse_wh := parse_wh P;
     path_suffix := path_suffix P;
     writer_opens := fun _ _ _ _ => false |}.

End Rig.

(* ================================================================== *)
(** * Part II: properties                                              *)
(* ================================================================== *)

(** ** [pick_fourcc] *)

(** Lowering a character gives a codec letter exactly when the character
    is that letter in either case. *)
Lemma lower_ascii_hits (a c : ascii) :
  codec_letter a = true ->
  Ascii.eqb (lower_ascii c) a = same_letter a c.
Proof.
  unfold codec_letter. cbn [existsb]. intros H.
  repeat (apply orb_true_iff in H; destruct H as [H|H];
          [apply Ascii.eqb_eq in H; subst a;
           destruct c as [[] [] [] [] [] [] [] []]; reflexivity|]).
  discriminate H.
Qed.

(** Comparing the lowered codec with a codec name is asking whether the
    codec spells that name in some letter case. *)
Lemma eqb_lower_spelled (lit : string) :
  codec_word lit = true ->
  forall s, String.eqb (lower s) lit = spelled lit s.
Proof.
  induction lit as [|a lit IH]; intros Hlit [|c s]; try reflexivity.
  cbn [codec_word] in Hlit. apply andb_true_iff in Hlit.
  destruct Hlit as [Ha Hlit].
  cbn [lower String.eqb spelled].
  rewrite (lower_ascii_hits a c Ha), (IH Hlit s).
  destruct (same_letter a c); reflexivity.
Qed.

(** C10. [pick_fourcc] gives a code for every string and looks at the
    string up to letter case only: a string that spells "mp4v", "xvid",
    "mjpg" or the alias "mjpeg", each letter in either case, gets the code
    of mp4v, XVID and MJPG respectively, and every other string gets the
    code of mp4v. *)
Theorem pick_fourcc_total_case_insensitive (codec : string) :
  pick_fourcc codec =
    (if spelled "mp4v" codec then 1983148141
     else if spelled "xvid" codec then 1145656920
     else if orb (spelled "mjpg" codec) (spelled "mjpeg" codec)
          then 1196444237
     else 1983148141)
  /\ VideoWriter_fourcc "m" "p" "4" "v" = 1983148141
  /\ VideoWriter_fourcc "X" "V" "I" "D" = 1145656920
  /\ VideoWriter_fourcc "M" "J" "P" "G" = 1196444237
  /\ pick_fourcc "XVID" = 1145656920
  /\ pick_fourcc "xViD" = 1145656920
  /\ pick_fourcc "MP4V" = 1983148141
  /\ pick_fourcc "MjPg" = 1196444237
  /\ pick_fourcc "MJPEG" = 1196444237
  /\ pick_fourcc "h264" = 1983148141.
Proof.
  split; [|repeat split; reflexivity].
  unfold pick_fourcc.
  rewrite !eqb_lower_spelled by reflexivity.
  destruct (spelled "mp4v" codec); [reflexivity|].
  destruct (spelled "xvid" codec); [reflexivity|].
  destruct (spelled "mjpg" codec || spelled "mjpeg" codec)%bool;
    reflexivity.
Qed.

Example spelled_examples :
  spelled "xvid" "XVID" = true /\ spelled "xvid" "xViD" = true /\
  spelled "mjpeg" "MJPEG" = true /\ spelled "mp4v" "MP4V" = true /\
  spelled "mp4v" "mp4" = false /\ spelled "mjpg" "mjpeg" = false /\
  spelled "xvid" "yvid" = false.
Proof. repeat split; reflexivity. Qed.

Example pick_fourcc_mixed_case :
  pick_fourcc "Mp4V" = 1983148141 /\ pick_fourcc "XVID" = 1145656920 /\
  pick_fourcc "mJpG" = 1196444237 /\ pick_fourcc "MJPEG" = 1196444237 /\
  pick_fourcc "h264" = 1983148141 /\ pick_fourcc "" = 1983148141.
Proof. repeat split; reflexivity. Qed.

(** ** The pacing period *)

Lemma Qltb_true (a b : Q) : Qltb a b = true <-> (a < b)%Q.
Proof.
  unfold Qltb. rewrite negb_true_iff. split.
  - intros H. apply Qnot_le_lt. intros Hle.
    apply Qle_bool_iff in Hle. congruence.
  - intros H. destruct (Qle_bool b a) eqn:E; [|reflexivity].
    apply Qle_bool_iff in E. exfalso. apply (Qlt_not_le _ _ H E).
Qed.

Lemma Qltb_false (a b : Q) : Qltb a b = false <-> (b <= a)%Q.
Proof.
  unfold Qltb. rewrite negb_false_iff. apply Qle_bool_iff.
Qed.

Lemma py_max_lower_bound (a b : Q) : (a <= Py.max a b)%Q.
Proof.
  unfold Py.max. destruct (Qltb a b) eqn:E.
  - apply Qltb_true in E. apply Qlt_le_weak. exact E.
  - apply Qle_refl.
Qed.

Lemma py_div_positive (b : Q) :
  (0 < b)%Q -> Py.div 1 b = Ret (1 / b)%Q.
Proof.
  intros Hb. unfold Py.div.
  destruct (Qeq_bool b 0) eqn:E; [|reflexivity].
  apply Qeq_bool_iff in E. rewrite E in Hb.
  exfalso. apply (Qlt_irrefl 0). exact Hb.
Qed.

Lemma fetcher_period_run (target_fps : Q) :
  fetcher_period target_fps = Ret (1 / Py.max (1 # 10) target_fps)%Q /\
  ((1 # 10) <= Py.max (1 # 10) target_fps)%Q /\
  (0 < 1 / Py.max (1 # 10) target_fps)%Q /\
  (1 / Py.max (1 # 10) target_fps <= 10)%Q.
Proof.
  pose proof (py_max_lower_bound (1 # 10) target_fps) as Hb.
  assert (Hpos : (0 < Py.max (1 # 10) target_fps)%Q)
    by (eapply Qlt_le_trans; [|exact Hb]; reflexivity).
  unfold fetcher_period. rewrite (py_div_positive _ Hpos).
  repeat split; try assumption.
  - unfold Qdiv. rewrite Qmult_1_l. apply Qinv_lt_0_compat. exact Hpos.
  - apply Qle_shift_div_r; [exact Hpos|]. lra.
Qed.

(** C9. For every [target_fps], zero and negative values included, the
    division that computes the pacing period does not raise: the divisor
    is [max(0.1, target_fps) >= 0.1], and the period is positive and at
    most 10 seconds. *)
Theorem fetcher_period_defined_and_bounded (target_fps : Q) :
  exists period : Q,
    fetcher_period target_fps = Ret period /\
    period = (1 / Py.max (1 # 10) target_fps)%Q /\
    ((1 # 10) <= Py.max (1 # 10) target_fps)%Q /\
    (0 < period)%Q /\ (period <= 10)%Q.
Proof.
  destruct (fetcher_period_run target_fps) as (Hp & Hmax & Hpos & Hle).
  exists (1 / Py.max (1 # 10) target_fps)%Q.
  repeat split; assumption.
Qed.

Example fetcher_period_at_zero_and_below :
  fetcher_period 0 = Ret (1 / (1 # 10))%Q /\
  fetcher_period (-5) = Ret (1 / (1 # 10))%Q /\
  fetcher_period 20 = Ret (1 / 20)%Q.
Proof. repeat split; reflexivity. Qed.

(** ** The single-fetch primitive *)

(** [fetch_jpeg] issues exactly one GET, and its result is the
    [jpeg_outcome] of that exchange. *)
Lemma fetch_jpeg_run (P : platform) (url : string) (t : Q) (w : world) :
  fetch_jpeg P url t w =
    (jpeg_outcome P (net P url (TimeoutOne t) (served w)),
     got P url (TimeoutOne t) w).
Proof.
  unfold fetch_jpeg, try_except, bind, requests_get, jpeg_outcome, got.
  destruct (reply (net P url (TimeoutOne t) (served w))) as [|code body];
    simpl; [reflexivity|].
  unfold raise_for_status, cv2_imdecode. simpl.
  destruct (andb (400 <=? code) (code <? 600)); simpl; [reflexivity|].
  destruct (imdecode P body); reflexivity.
Qed.

(** The one exception a fetch can let out is the decoder's. *)
Lemma jpeg_outcome_raises (P : platform) (x : exchange) (e : exn) :
  jpeg_outcome P x = Raise e -> e = CvError.
Proof.
  unfold jpeg_outcome. destruct (reply x) as [|code body]; [discriminate|].
  destruct (andb (400 <=? code) (code <? 600)); [discriminate|].
  destruct (imdecode P body); try discriminate. congruence.
Qed.

(** The fetch of the live poller, lines 44-50, never lets an exception
    out: whatever the exchange and the decoder do, one pass through the
    loop body returns. *)
Lemma fetcher_iteration_returns (P : platform) (url : string)
  (ct rt period : Q) (st : fetcher_state) (w : world) :
  exists st' : fetcher_state,
    fst (fetcher_iteration P url ct rt period st w) = Ret st'.
Proof.
  unfold fetcher_iteration, bind, time_now.
  destruct (Qltb (clock w) (t_next st)); simpl; [eexists; reflexivity|].
  unfold try_except at 1.
  match goal with
  | |- context [match ?m with pair _ _ => _ end] => destruct m as [[a|e] w1]
  end; simpl; eexists; reflexivity.
Qed.

(** C3. [fetch_jpeg] lets the exception of the decoder escape: on a
    200 answer with an empty body, on which the decoder raises,
    [fetch_jpeg] raises [cv2.error] instead of returning [None], while a
    timeout, a 503 answer and an undecodable body give [None] and the live
    poller's fetch, on the same empty answer, returns. *)
Theorem fetch_jpeg_decode_error_escapes :
  let P := Lab.platform_of
             [Lab.ok 0 []; Lab.timed_out (3 # 2); Lab.status 0 503;
              Lab.ok 0 [Init.Byte.x00]; Lab.ok 0 (Lab.jpeg Init.Byte.x0a)]
             (Lab.timed_out 1) in
  let w k := {| clock := 0; served := k;
                queue := {| maxsize := 1; items := [] |}; log := [] |} in
  fst (fetch_jpeg P "http://192.168.4.1/capture.jpg" (3 # 2) (w 0%nat))
    = Raise CvError
  /\ fst (fetch_jpeg P "http://192.168.4.1/capture.jpg" (3 # 2) (w 1%nat))
    = Ret None
  /\ fst (fetch_jpeg P "http://192.168.4.1/capture.jpg" (3 # 2) (w 2%nat))
    = Ret None
  /\ fst (fetch_jpeg P "http://192.168.4.1/capture.jpg" (3 # 2) (w 3%nat))
    = Ret None
  /\ fst (fetch_jpeg P "http://192.168.4.1/capture.jpg" (3 # 2) (w 4%nat))
    = Ret (Some (Lab.img Init.Byte.x0a))
  /\ fst (fetcher_iteration P "http://192.168.4.1/capture.jpg"
            (1 # 2) 1 (1 # 20) {| t_next := 0; backoff := 0 |} (w 0%nat))
    = Ret {| t_next := 0 + (1 # 20); backoff := Py.min (1 # 2) (0 + (5 # 100)) |}.
Proof. repeat split; reflexivity. Qed.

(** ** Reading the log of a run *)

Lemma pick_app {A : Type} (sel : event -> option A) (h1 h2 : list event) :
  pick sel (h1 ++ h2) = (pick sel h1 ++ pick sel h2)%list.
Proof.
  induction h1 as [|e h1 IH]; simpl; [reflexivity|].
  destruct (sel e); simpl; rewrite IH; reflexivity.
Qed.

(** Unfolds the readers of the log on a world whose log is a few events
    consed on another, and splits the picks accordingly. *)
Ltac read_log :=
  unfold written, opened, requested, printed, slept, history;
  cbn [log rev got];
  rewrite ?pick_app; cbn [pick is_write is_open is_get is_print];
  rewrite ?app_nil_r.

(** ** One tick of the recorder *)

Lemma tick_run (P : platform) (args : recorder_args) (frame_size : Z * Z)
  (start : Q) (st : tick_state) (i : Z) (w : world) :
  let o := fetch_outcome P args (served w) in
  match tick P args frame_size start st i w with
  | (Ret st', w') =>
      served w' = S (served w) /\
      written w' = (written w ++ [frame_to_write st'])%list /\
      opened w' = opened w /\
      last_good st' = frame_to_write st' /\
      ((o = Ret None /\ frame_to_write st' = last_good st) \/
       (exists f, o = Ret (Some f) /\
                  fitted P frame_size f (frame_to_write st')))
  | (Raise e, w') =>
      written w' = written w /\
      opened w' = opened w /\
      tick_fails P args frame_size o
  end.
Proof.
  unfold tick, bind, lift, Py.div, fetch_outcome, tick_fails.
  destruct (Qeq_bool (fps args) 0) eqn:Efps.
  { repeat split; try reflexivity. left. reflexivity. }
  rewrite fetch_jpeg_run.
  destruct (jpeg_outcome P (net P (url args) (TimeoutOne (timeout args))
                                (served w))) as [[f|]|e] eqn:Eo.
  - (* success *)
    unfold resize_to, size_of, fitted.
    destruct (size_eqb frame_size (cols f, rows f)) eqn:Esz; simpl.
    + destruct (verbose args); simpl;
        match goal with
        | |- context [Qltb ?a ?b] => destruct (Qltb a b)
        end; simpl;
        (repeat split; try reflexivity; try (read_log; reflexivity));
        right; exists f; unfold size_of; rewrite Esz; split; reflexivity.
    + destruct (cv2_resize P f frame_size) as [g|] eqn:Er; simpl.
      * destruct (verbose args); simpl;
          match goal with
          | |- context [Qltb ?a ?b] => destruct (Qltb a b)
          end; simpl;
          (repeat split; try reflexivity; try (read_log; reflexivity));
          right; exists f; unfold size_of; rewrite Esz;
          (split; [reflexivity|exact Er]).
      * split; [read_log; reflexivity|].
        split; [read_log; reflexivity|].
        right; right. exists f. repeat split; assumption.
  - (* failure: freeze *)
    destruct (verbose args); simpl;
      match goal with
      | |- context [Qltb ?a ?b] => destruct (Qltb a b)
      end; simpl;
      (repeat split; try reflexivity; try (read_log; reflexivity));
      left; split; reflexivity.
  - (* the fetch raised *)
    split; [read_log; reflexivity|].
    split; [read_log; reflexivity|].
    right; left. exists e. reflexivity.
Qed.

(** ** The timing loop *)

Lemma loop_run (P : platform) (args : recorder_args) (frame_size : Z * Z)
  (start : Q) (xs : list Z) :
  forall (st : tick_state) (w : world) r w',
    for_each xs (tick P args frame_size start) st w = (r, w') ->
    exists ws : list ndarray,
      written w' = (written w ++ ws)%list /\
      opened w' = opened w /\
      frozen P frame_size (last_good st)
             (outcomes P args (served w) (List.length xs)) ws /\
      match r with
      | Ret _ => List.length ws = List.length xs
      | Raise _ =>
          exists o,
            nth_error (outcomes P args (served w) (List.length xs))
                      (List.length ws) = Some o /\
            tick_fails P args frame_size o
      end.
Proof.
  induction xs as [|x xs IH]; intros st w r w' Hrun.
  - injection Hrun as <- <-. exists []. rewrite app_nil_r.
    repeat split. constructor.
  - cbn [for_each] in Hrun. unfold bind in Hrun.
    pose proof (tick_run P args frame_size start st x w) as Ht.
    cbv zeta in Ht.
    destruct (tick P args frame_size start st x w) as [[st1|e] w1].
    + destruct Ht as (Hs & Hw & Ho & Hlg & Hcase).
      destruct (IH st1 w1 r w' Hrun) as (ws & Hw' & Ho' & Hfr & Hlen).
      exists (frame_to_write st1 :: ws).
      split; [rewrite Hw', Hw, <- app_assoc; reflexivity|].
      split; [congruence|].
      split.
      * unfold outcomes in *. cbn [List.length seq map].
        rewrite Hs in Hfr.
        destruct Hcase as [[Hnone Hsame]|(f & Hsome & Hfit)].
        -- rewrite Hnone, Hsame. apply frozen_failure.
           rewrite Hlg, Hsame in Hfr. exact Hfr.
        -- rewrite Hsome. eapply frozen_success; [exact Hfit|].
           rewrite Hlg in Hfr. exact Hfr.
      * destruct r as [st'|e]; cbn [List.length]; [lia|].
        destruct Hlen as (o & Hnth & Hfail). exists o.
        split; [|exact Hfail].
        unfold outcomes in *. cbn [seq map nth_error].
        rewrite Hs in Hnth. exact Hnth.
    + injection Hrun as <- <-.
      destruct Ht as (Hw & Ho & Hfail).
      exists []. rewrite app_nil_r.
      repeat split; try assumption; [constructor|].
      eexists. split; [|exact Hfail]. reflexivity.
Qed.

Lemma range_length (a b : Z) :
  List.length (Py.range a b) = Z.to_nat (b - a).
Proof.
  unfold Py.range. rewrite length_map, length_seq. reflexivity.
Qed.

(** ** A recorder session *)

Lemma main_session_run (P : platform) (args : recorder_args)
  (frame_size : Z * Z) (frame0 : ndarray) (w : world) r w' :
  main_session P args frame_size frame0 w = (r, w') ->
  opened w' = (opened w ++ [frame_size])%list /\
  ((writer_opens P (out args) (pick_fourcc (codec args)) (fps args)
                 frame_size = false /\
    r = Ret tt /\ written w' = written w) \/
   (writer_opens P (out args) (pick_fourcc (codec args)) (fps args)
                 frame_size = true /\
    exists ws : list ndarray,
      written w' = (written w ++ frame0 :: ws)%list /\
      frozen P frame_size frame0
             (outcomes P args (served w) (Z.to_nat (total_frames args - 1)))
             ws /\
      match r with
      | Ret _ => List.length ws = Z.to_nat (total_frames args - 1)
      | Raise _ =>
          exists o,
            nth_error (outcomes P args (served w)
                                (Z.to_nat (total_frames args - 1)))
                      (List.length ws) = Some o /\
            tick_fails P args frame_size o
      end)).
Proof.
  unfold main_session, total_frames. intros Hrun.
  set (note := andb _ _) in Hrun.
  unfold bind at 1 in Hrun.
  assert (Hnote : exists w0, when note (print MsgNoteAvi) w = (Ret tt, w0) /\
                    served w0 = served w /\ written w0 = written w /\
                    opened w0 = opened w).
  { destruct note; simpl; eexists; (split; [reflexivity|]);
      repeat split; read_log; reflexivity. }
  destruct Hnote as (w0 & Ew0 & Hs0 & Hw0 & Ho0).
  rewrite Ew0 in Hrun.
  unfold bind at 1 in Hrun. cbn [emit] in Hrun.
  destruct (writer_opens P (out args) (pick_fourcc (codec args)) (fps args)
                         frame_size) eqn:Eopen; cbn [negb] in Hrun.
  - (* the writer opened *)
    unfold bind at 1, print at 1, emit at 1 in Hrun.
    unfold bind at 1, time_now at 1 in Hrun.
    unfold bind at 1, emit at 1 in Hrun.
    unfold bind at 1 in Hrun.
    match type of Hrun with
    | context [for_each ?xs ?body ?st ?w1] =>
        destruct (for_each xs body st w1) as [r1 w1'] eqn:Eloop
    end.
    apply loop_run in Eloop.
    destruct Eloop as (ws & Hw & Ho & Hfr & Hlen).
    rewrite range_length in Hfr, Hlen.
    cbn [last_good served] in Hfr.
    assert (Hbase : written w1' = (written w ++ frame0 :: ws)%list).
    { rewrite Hw. read_log. rewrite <- app_assoc. cbn [app].
      fold (history w0). fold (written w0). rewrite Hw0. reflexivity. }
    assert (Hobase : opened w1' = (opened w ++ [frame_size])%list).
    { rewrite Ho. read_log.
      fold (history w0). fold (opened w0). rewrite Ho0. reflexivity. }
    rewrite Hs0 in Hfr, Hlen.
    destruct r1 as [st'|e].
    + cbn in Hrun. injection Hrun as <- <-.
      split; [read_log; exact Hobase|].
      right. split; [reflexivity|]. exists ws.
      split; [read_log; exact Hbase|]. split; assumption.
    + injection Hrun as <- <-.
      split; [exact Hobase|].
      right. split; [reflexivity|]. exists ws.
      split; [exact Hbase|]. split; assumption.
  - (* the writer did not open *)
    cbn in Hrun. injection Hrun as <- <-.
    split.
    + read_log. fold (history w0). fold (opened w0). rewrite Ho0.
      reflexivity.
    + left. repeat split. read_log.
      fold (history w0). fold (written w0). exact Hw0.
Qed.

Lemma main_run (P : platform) (args : recorder_args) (t0 : Q) r w' :
  main P args (boot t0) = (r, w') ->
  (opened w' = [] /\ written w' = [] /\
   forall first frame_size frame0,
     fetch_outcome P args 0 = Ret (Some first) ->
     ~ session_start P args first frame_size frame0) \/
  (exists (first : ndarray) (frame_size : Z * Z) (frame0 : ndarray),
      fetch_outcome P args 0 = Ret (Some first) /\
      session_start P args first frame_size frame0 /\
      opened w' = [frame_size] /\
      ((writer_opens P (out args) (pick_fourcc (codec args)) (fps args)
                     frame_size = false /\
        r = Ret tt /\ written w' = []) \/
       (writer_opens P (out args) (pick_fourcc (codec args)) (fps args)
                     frame_size = true /\
        exists ws : list ndarray,
          written w' = frame0 :: ws /\
          frozen P frame_size frame0
                 (outcomes P args 1 (Z.to_nat (total_frames args - 1))) ws /\
          match r with
          | Ret _ => List.length ws = Z.to_nat (total_frames args - 1)
          | Raise _ =>
              exists o,
                nth_error (outcomes P args 1
                                    (Z.to_nat (total_frames args - 1)))
                          (List.length ws) = Some o /\
                tick_fails P args frame_size o
          end))).
Proof.
  unfold main. unfold bind at 1, print at 1, emit at 1.
  unfold bind at 1. rewrite fetch_jpeg_run. cbn [served boot].
  fold (fetch_outcome P args 0).
  destruct (fetch_outcome P args 0) as [[first|]|e] eqn:Efirst.
  - set (w1 := got P _ _ _).
    assert (Hw1 : written w1 = [] /\ opened w1 = [] /\ served w1 = 1%nat)
      by (repeat split; reflexivity).
    destruct Hw1 as (Hw1 & Ho1 & Hs1).
    destruct (String.eqb (resize args) "") eqn:Eres; cbn [negb].
    + (* no --resize *)
      apply String.eqb_eq in Eres.
      intros Hrun. apply main_session_run in Hrun.
      rewrite Hw1, Ho1, Hs1 in Hrun. cbn [app] in Hrun.
      destruct Hrun as (Ho & Hrest).
      right. exists first, (cols first, rows first), first.
      split; [reflexivity|].
      split; [left; repeat split; assumption|].
      split; [exact Ho|exact Hrest].
    + apply String.eqb_neq in Eres.
      destruct (parse_wh P (lower (resize args))) as [[out_w out_h]|]
        eqn:Eparse.
      * unfold bind at 1, resize_to.
        destruct (cv2_resize P first (out_w, out_h)) as [g|] eqn:Er.
        -- cbn [ret]. intros Hrun. apply main_session_run in Hrun.
           rewrite Hw1, Ho1, Hs1 in Hrun. cbn [app] in Hrun.
           destruct Hrun as (Ho & Hrest).
           right. exists first, (out_w, out_h), g.
           split; [reflexivity|].
           split; [right; repeat split; assumption|].
           split; [exact Ho|exact Hrest].
        -- cbn [raise]. intros Hrun. injection Hrun as <- <-.
           left. split; [assumption|]. split; [assumption|].
           intros f fs f0 Hf [(Hres & _)|(_ & Hp & Hr)];
             [contradiction|].
           injection Hf as <-. congruence.
      * intros Hrun. cbn in Hrun. injection Hrun as <- <-.
        left. split; [reflexivity|]. split; [reflexivity|].
        intros f fs f0 Hf [(Hres & _)|(_ & Hp & Hr)];
          [contradiction|congruence].
  - intros Hrun. cbn in Hrun. injection Hrun as <- <-.
    left. split; [reflexivity|]. split; [reflexivity|].
    intros f fs f0 Hf. discriminate.
  - intros Hrun. injection Hrun as <- <-.
    left. split; [reflexivity|]. split; [reflexivity|].
    intros f fs f0 Hf. discriminate.
Qed.

(** ** C7: the first frame is a hard precondition *)

(** C7. A first fetch that fails ends the session with exactly one GET
    on the log (no retry), no writer opened and no frame written.  When
    [fetch_jpeg] returns [None], [main] returns after printing the
    diagnostic of line 53.  When the failure is the decoder raising, the
    exception that [fetch_jpeg] lets out ends [main] at line 51: the
    diagnostic is never printed. *)
Theorem failed_first_fetch_ends_session (P : platform)
  (args : recorder_args) (t0 : Q) :
  is_success (fetch_outcome P args 0) = false ->
  let run := main P args (boot t0) in
  opened (snd run) = [] /\
  written (snd run) = [] /\
  requested (snd run) = [t0] /\
  ((fetch_outcome P args 0 = Ret None /\
    fst run = Ret tt /\
    history (snd run) =
      [EvPrint (MsgFetchingFirst (url args));
       EvGet (url args) (TimeoutOne (timeout args)) t0;
       EvPrint MsgErrFirstFrame]) \/
   (fetch_outcome P args 0 = Raise CvError /\
    fst run = Raise CvError /\
    history (snd run) =
      [EvPrint (MsgFetchingFirst (url args));
       EvGet (url args) (TimeoutOne (timeout args)) t0] /\
    ~ In MsgErrFirstFrame (printed (snd run)))).
Proof.
  intros Hfail. cbv zeta.
  destruct (main P args (boot t0)) as [r w'] eqn:Erun.
  revert Erun. unfold main. unfold bind at 1, print at 1, emit at 1.
  unfold bind at 1. rewrite fetch_jpeg_run. cbn [served boot].
  fold (fetch_outcome P args 0).
  pose proof (jpeg_outcome_raises P
                (net P (url args) (TimeoutOne (timeout args)) 0)) as Hexn.
  fold (fetch_outcome P args 0) in Hexn.
  destruct (fetch_outcome P args 0) as [[f|]|e]; [discriminate Hfail| |].
  - intros Erun. cbn in Erun. injection Erun as <- <-.
    repeat split. left. repeat split.
  - rewrite (Hexn e eq_refl). intros Erun. cbn in Erun.
    injection Erun as <- <-.
    repeat split. right. repeat split.
    intros [H|[]]. discriminate H.
Qed.

Lemma failed_first_fetch_ends_session_witness :
  let P := Lab.platform_of [Lab.ok (1 # 100) []]
                           (Lab.ok (1 # 100) (Lab.jpeg Init.Byte.x0a)) in
  let run := main P Lab.default_args (boot 0) in
  is_success (fetch_outcome P Lab.default_args 0) = false /\
  fst run = Raise CvError /\
  printed (snd run) = [MsgFetchingFirst "http://192.168.4.1/capture.jpg"] /\
  opened (snd run) = [] /\
  written (snd run) = [] /\
  requested (snd run) = [0%Q].
Proof.
  intros P run.
  pose proof (failed_first_fetch_ends_session P Lab.default_args 0 eq_refl)
    as H.
  cbv zeta in H. fold run in H.
  destruct H as (Ho & Hw & Hg & [(Hnone & _)|(_ & Hr & Hh & _)]).
  - vm_compute in Hnone. discriminate Hnone.
  - split; [reflexivity|]. split; [exact Hr|].
    split; [|repeat split; assumption].
    unfold printed. rewrite Hh. reflexivity.
Defined.

(** The same session with a camera that does not answer in time: here
    the diagnostic is printed and [main] returns. *)
Example first_fetch_timeout_is_reported :
  let P := Lab.platform_of [Lab.timed_out (3 # 2)]
                           (Lab.ok 0 (Lab.jpeg Init.Byte.x0a)) in
  let run := main P Lab.default_args (boot 0) in
  fetch_outcome P Lab.default_args 0 = Ret None /\
  fst run = Ret tt /\
  printed (snd run) =
    [MsgFetchingFirst "http://192.168.4.1/capture.jpg"; MsgErrFirstFrame] /\
  opened (snd run) = [] /\
  written (snd run) = [] /\
  requested (snd run) = [0%Q].
Proof. vm_compute. repeat split. Qed.

(** ** C1: the number of frames written *)

(** A session that runs to its end has written frame 0 and one frame per
    tick of [range(1, total_frames)]: [max(1, total_frames)] frames. *)
Lemma completed_session_frame_count (P : platform) (args : recorder_args)
  (t0 : Q) (w' : world) :
  main P args (boot t0) = (Ret tt, w') ->
  written w' = [] \/
  Z.of_nat (List.length (written w')) = Z.max 1 (total_frames args).
Proof.
  intros Hrun. apply main_run in Hrun.
  destruct Hrun as [(_ & Hw & _)|(first & fs & f0 & _ & _ & _ & Hs)].
  - left. exact Hw.
  - destruct Hs as [(_ & _ & Hw)|(_ & ws & Hw & _ & Hlen)].
    + left. exact Hw.
    + right. rewrite Hw. cbn [List.length]. rewrite Hlen. lia.
Qed.

(** C1. With [--seconds 0] the recorder computes [total_frames = 0],
    announces and reports 0 frames, and yet hands one frame to the
    writer before releasing it: frame 0 is written before the loop,
    whatever [total_frames] is. The same happens at [--fps 10
    --seconds 0.04], where the product rounds to 0. *)
Theorem zero_frames_requested_one_written :
  let P := Lab.platform_of [Lab.ok (1 # 100) (Lab.jpeg Init.Byte.x0a)]
                           (Lab.timed_out (3 # 2)) in
  let args := Lab.with_length Lab.default_args 10 0 in
  let args' := Lab.with_length Lab.default_args 10 (4 # 100) in
  total_frames args = 0 /\
  fst (main P args (boot 0)) = Ret tt /\
  written (snd (main P args (boot 0))) = [Lab.img Init.Byte.x0a] /\
  printed (snd (main P args (boot 0))) =
    [MsgFetchingFirst (url args);
     MsgWriting 0 10 "capture.mp4" (2, 2) "mp4v";
     MsgDone 0 ((1 # 100) - (1 # 100))%Q "capture.mp4"] /\
  total_frames args' = 0 /\
  written (snd (main P args' (boot 0))) = [Lab.img Init.Byte.x0a].
Proof. vm_compute. repeat split. Qed.

(** ** C8: every written frame has the size the writer was opened with *)

Lemma size_eqb_true (a b : Z * Z) : size_eqb a b = true -> a = b.
Proof.
  destruct a as [a1 a2], b as [b1 b2]. unfold size_eqb. cbn [fst snd].
  intros H. apply andb_true_iff in H. destruct H as [H1 H2].
  apply Z.eqb_eq in H1, H2. congruence.
Qed.


Lemma fitted_size (P : platform) (frame_size : Z * Z) (f g : ndarray) :
  resize_contract P -> fitted P frame_size f g -> size_of g = frame_size.
Proof.
  intros HP. unfold fitted.
  destruct (size_eqb frame_size (size_of f)) eqn:E.
  - intros ->. symmetry. apply size_eqb_true. exact E.
  - apply HP.
Qed.

Lemma frozen_sizes (P : platform) (frame_size : Z * Z) prev os ws :
  resize_contract P ->
  size_of prev = frame_size ->
  frozen P frame_size prev os ws ->
  Forall (fun g => size_of g = frame_size) ws.
Proof.
  intros HP Hprev Hfr. induction Hfr as [| |prev f g os ws Hfit Hfr IH].
  - constructor.
  - constructor; auto.
  - pose proof (fitted_size P frame_size f g HP Hfit) as Hg.
    constructor; auto.
Qed.

(** C8. In every run of the recorder the writer is opened at most once,
    and every frame handed to [writer.write] has exactly the size the
    writer was opened with, provided [cv2.resize] returns frames of the
    size it is asked for. *)
Theorem written_frames_have_session_size (P : platform)
  (args : recorder_args) (t0 : Q) :
  resize_contract P ->
  let w' := snd (main P args (boot t0)) in
  (List.length (opened w') <= 1)%nat /\
  forall (size : Z * Z) (f : ndarray),
    In size (opened w') -> In f (written w') -> size_of f = size.
Proof.
  intros HP. cbv zeta.
  destruct (main P args (boot t0)) as [r w'] eqn:Hrun. cbn [snd].
  apply main_run in Hrun.
  destruct Hrun as [(Ho & Hw & _)|(first & fs & f0 & _ & Hstart & Ho & Hs)].
  - rewrite Ho, Hw. split; [cbn; lia|]. intros size f [].
  - rewrite Ho. split; [cbn; lia|].
    intros size f [<-|[]] Hin.
    assert (Hf0 : size_of f0 = fs).
    { destruct Hstart as [(_ & -> & ->)|(_ & _ & Hr)];
        [reflexivity|exact (HP _ _ _ Hr)]. }
    destruct Hs as [(_ & _ & Hw)|(_ & ws & Hw & Hfr & _)].
    + rewrite Hw in Hin. destruct Hin.
    + rewrite Hw in Hin. destruct Hin as [<-|Hin]; [exact Hf0|].
      pose proof (frozen_sizes P fs f0 _ ws HP Hf0 Hfr) as Hall.
      rewrite Forall_forall in Hall. apply Hall. exact Hin.
Qed.

Lemma lab_resize_contract (script : list exchange) (otherwise : exchange) :
  resize_contract (Lab.platform_of script otherwise).
Proof.
  intros f g [sw sh]. cbn. unfold Lab.toy_resize. cbn [fst snd].
  destruct (andb (0 <? sw) (0 <? sh)); [|discriminate].
  intros H. injection H as <-. reflexivity.
Qed.

Lemma written_frames_have_session_size_witness :
  let P := Lab.platform_of
             [Lab.ok (1 # 100) (Lab.jpeg Init.Byte.x0a);
              Lab.timed_out (3 # 2);
              Lab.ok (1 # 100) (Lab.wide_jpeg Init.Byte.x0b)]
             (Lab.ok (1 # 100) (Lab.jpeg Init.Byte.x0c)) in
  let args := Lab.with_resize (Lab.with_length Lab.default_args 10 (1 # 2))
                              "4X3" in
  opened (snd (main P args (boot 0))) = [(4, 3)] /\
  List.length (written (snd (main P args (boot 0)))) = 5%nat /\
  forall f, In f (written (snd (main P args (boot 0)))) ->
            size_of f = (4, 3).
Proof.
  intros P args.
  assert (Ho : opened (snd (main P args (boot 0))) = [(4, 3)])
    by (vm_compute; reflexivity).
  split; [exact Ho|]. split; [vm_compute; reflexivity|].
  intros f Hin.
  refine (proj2 (written_frames_have_session_size P args 0
                   (lab_resize_contract _ _)) (4, 3) f _ Hin).
  rewrite Ho. left. reflexivity.
Defined.

(** ** C2: the freeze-frame policy *)


Lemma round_zero (x : Q) : (x == 0)%Q -> Py.round x = 0.
Proof.
  intros Hx. unfold Py.round.
  assert (Hf : Qfloor x = 0) by (rewrite Hx; reflexivity).
  rewrite Hf.
  assert (Hlt : Qltb (x - inject_Z 0) (1 # 2) = true).
  { apply Qltb_true. rewrite Hx. reflexivity. }
  rewrite Hlt. reflexivity.
Qed.

Lemma total_frames_needs_fps (args : recorder_args) :
  Qeq_bool (fps args) 0 = true -> total_frames args = 0.
Proof.
  intros H. apply Qeq_bool_iff in H. unfold total_frames.
  apply round_zero. rewrite H. ring.
Qed.







(** ** The single-slot queue *)

Lemma drain_loop_run (n : nat) :
  forall w : world,
    List.length (items (queue w)) = n ->
    drain_loop w = (Raise QueueEmpty, set_items w []).
Proof.
  induction n as [|n IH]; intros [c s [m [|x rest]] lg] Hn;
    try discriminate Hn.
  - rewrite drain_loop_equation_1. reflexivity.
  - rewrite drain_loop_equation_1. cbn.
    rewrite IH; [reflexivity|]. cbn in *. lia.
Qed.

(** Publishing never raises and leaves exactly the new frame in the
    queue, whatever the queue held and whatever its bound. *)
Lemma publish_run (f : ndarray) (w : world) :
  publish f w = (Ret tt, set_items w [f]).
Proof.
  unfold publish, bind, try_except.
  rewrite (drain_loop_run _ w eq_refl). cbn.
  unfold put_nowait. cbn.
  destruct (0 <? maxsize (queue w)) eqn:E; [|reflexivity].
  apply Z.ltb_lt in E.
  destruct (maxsize (queue w) <=? 0) eqn:E'; [|reflexivity].
  apply Z.leb_le in E'. lia.
Qed.

Lemma poll_run (w : world) :
  poll w = match items (queue w) with
           | [] => (Ret None, w)
           | x :: rest => (Ret (Some x), set_items w rest)
           end.
Proof.
  unfold poll, try_except, bind, get_nowait.
  destruct (items (queue w)); reflexivity.
Qed.

Lemma run_op_single_slot (o : queue_op) (w : world) :
  single_slot w -> single_slot (run_op o w).
Proof.
  unfold single_slot. intros [Hm Hl].
  destruct o as [f| |f|]; cbn [run_op].
  - rewrite publish_run. cbn. split; [exact Hm|lia].
  - unfold get_nowait. destruct (items (queue w)) as [|x rest] eqn:E; cbn.
    + rewrite E. split; [exact Hm|cbn; lia].
    + split; [exact Hm|]. cbn in Hl. lia.
  - unfold put_nowait. cbv zeta. rewrite Hm.
    destruct (items (queue w)) as [|x rest] eqn:E.
    + cbn. split; [exact Hm|lia].
    + replace (andb (0 <? 1) (1 <=? Z.of_nat (List.length (x :: rest))))
        with true.
      * cbn [snd]. rewrite E. split; [exact Hm|exact Hl].
      * symmetry. apply andb_true_iff. split; [reflexivity|].
        apply Z.leb_le. cbn [List.length]. lia.
  - rewrite poll_run. destruct (items (queue w)) as [|x rest] eqn:E; cbn.
    + rewrite E. split; [exact Hm|cbn; lia].
    + split; [exact Hm|]. cbn in Hl. lia.
Qed.

Lemma run_ops_single_slot (os : list queue_op) :
  forall w, single_slot w -> single_slot (run_ops os w).
Proof.
  unfold run_ops. induction os as [|o os IH]; intros w Hw; [exact Hw|].
  cbn [fold_left]. apply IH. apply run_op_single_slot. exact Hw.
Qed.

Lemma run_publishes (fs : list ndarray) (f : ndarray) :
  forall w,
    run_ops (map OpPublish (fs ++ [f])%list) w = set_items w [f].
Proof.
  unfold run_ops. induction fs as [|g fs IH]; intros w.
  - cbn. rewrite publish_run. reflexivity.
  - cbn [app map fold_left run_op]. rewrite publish_run.
    rewrite IH. reflexivity.
Qed.

(** C5. In any state the two threads can bring the queue to, the queue
    holds at most one frame; a publish (the producer's put) returns
    without raising and leaves exactly its frame in the queue; and after
    any number N >= 1 of publishes with no get in between, the queue
    holds exactly the last frame and the consumer's get returns it and
    empties the queue. *)
Theorem latest_frame_wins (ops : list queue_op) (t0 : Q)
  (fs : list ndarray) (f : ndarray) :
  let w := run_ops ops (boot t0) in
  let w' := run_ops (map OpPublish (fs ++ [f])%list) w in
  (List.length (items (queue w)) <= 1)%nat /\
  (forall g : ndarray,
      fst (publish g w) = Ret tt /\
      items (queue (snd (publish g w))) = [g]) /\
  items (queue w') = [f] /\
  fst (poll w') = Ret (Some f) /\
  items (queue (snd (poll w'))) = [].
Proof.
  cbv zeta.
  pose proof (run_ops_single_slot ops (boot t0)) as Hinv.
  destruct Hinv as [_ Hlen]; [split; [reflexivity|cbn; lia]|].
  split; [exact Hlen|].
  split; [intros g; rewrite publish_run; split; reflexivity|].
  rewrite run_publishes. rewrite poll_run. cbn.
  repeat split.
Qed.

Example latest_of_three :
  let a := Lab.img Init.Byte.x01 in
  let b := Lab.img Init.Byte.x02 in
  let c := Lab.img Init.Byte.x03 in
  let w := run_ops [OpPublish a; OpPublish b; OpPublish c] (boot 0) in
  items (queue w) = [c] /\
  fst (poll w) = Ret (Some c) /\
  fst (poll (snd (poll w))) = Ret None /\
  fst (put_nowait a w) = Raise QueueFull.
Proof. vm_compute. repeat split. Qed.

(** ** One pass of the live poller *)

(** The three things a pass can do: wait for the next due time, fetch
    and publish, or fetch, fail and back off. *)
Lemma fetcher_iteration_run (P : platform) (url : string)
  (ct rt period : Q) (st : fetcher_state) (w : world) :
  fetcher_iteration P url ct rt period st w =
    if Qltb (clock w) (t_next st) then
      (Ret st,
       snd (sleep PollerPace
                  (Py.min (2 # 1000) (t_next st - clock w)%Q) w))
    else
      match poller_outcome P url ct rt (served w) with
      | Ret (Some f) =>
          (Ret {| t_next := (t_next st + period)%Q; backoff := 0 |},
           set_items (got P url (TimeoutPair ct rt) w) [f])
      | _ =>
          (Ret {| t_next := (t_next st + period)%Q;
                  backoff := Py.min (1 # 2) (backoff st + (5 # 100))%Q |},
           snd (sleep PollerBackoff
                      (Py.min (1 # 2) (backoff st + (5 # 100))%Q)
                      (got P url (TimeoutPair ct rt) w)))
      end.
Proof.
  unfold fetcher_iteration, bind at 1, time_now.
  destruct (Qltb (clock w) (t_next st)); [reflexivity|].
  unfold poller_outcome, jpeg_outcome, try_except, bind at 1, requests_get.
  fold (got P url (TimeoutPair ct rt) w).
  destruct (reply (net P url (TimeoutPair ct rt) (served w)))
    as [|code body]; [reflexivity|].
  unfold bind at 1, raise_for_status. cbn [fst snd].
  destruct (andb (400 <=? code) (code <? 600)); [reflexivity|].
  cbn [ret]. unfold bind at 1, cv2_imdecode.
  destruct (imdecode P body) as [| |f]; try reflexivity.
  cbn [ret]. unfold bind at 1. rewrite publish_run. reflexivity.
Qed.

Lemma py_min_cases (a b : Q) :
  (Py.min a b = a /\ (a <= b)%Q) \/ (Py.min a b = b /\ (b < a)%Q).
Proof.
  unfold Py.min. destruct (Qltb b a) eqn:E.
  - right. split; [reflexivity|]. apply Qltb_true. exact E.
  - left. split; [reflexivity|]. apply Qltb_false. exact E.
Qed.

Lemma requested_after_get (P : platform) (url : string) (t : timeout_arg)
  (w : world) :
  requested (got P url t w) = (requested w ++ [clock w])%list.
Proof. read_log. reflexivity. Qed.

Lemma requested_after_sleep (site : sleep_site) (d : Q) (w : world) :
  requested (snd (sleep site d w)) = requested w.
Proof. unfold sleep. cbn [snd]. read_log. reflexivity. Qed.

Lemma fetcher_iteration_paced (P : platform) (url : string)
  (ct rt period t0 : Q) (st : fetcher_state) (w : world) :
  paced t0 period st w ->
  exists st' w',
    fetcher_iteration P url ct rt period st w = (Ret st', w') /\
    paced t0 period st' w'.
Proof.
  intros (Hb0 & Hb1 & Hnext & Hdue).
  rewrite fetcher_iteration_run.
  destruct (Qltb (clock w) (t_next st)) eqn:Edue.
  - (* waiting *)
    eexists; eexists; split; [reflexivity|].
    unfold paced. rewrite requested_after_sleep.
    repeat split; assumption.
  - apply Qltb_false in Edue.
    assert (Hreq : forall w1, requested w1 = (requested w ++ [clock w])%list ->
              forall b, (0 <= b)%Q -> (b <= 1 # 2)%Q ->
              paced t0 period
                {| t_next := (t_next st + period)%Q; backoff := b |} w1).
    { intros w1 Hw1 b Hb0' Hb1'. unfold paced. cbn [backoff t_next].
      rewrite Hw1. split; [exact Hb0'|]. split; [exact Hb1'|]. split.
      - rewrite length_app. cbn [List.length].
        rewrite Nat2Z.inj_add, inject_Z_plus. rewrite Hnext.
        change (inject_Z (Z.of_nat 1)) with 1%Q. ring.
      - intros k t Hk.
        destruct (Nat.lt_ge_cases k (List.length (requested w))) as [Hlt|Hge].
        + rewrite nth_error_app1 in Hk by exact Hlt. apply Hdue. exact Hk.
        + rewrite nth_error_app2 in Hk by exact Hge.
          destruct (k - List.length (requested w))%nat as [|m] eqn:Em;
            [|destruct m; discriminate].
          cbn in Hk. injection Hk as <-.
          assert (k = List.length (requested w)) as -> by lia.
          rewrite <- Hnext. exact Edue. }
    assert (Hgrow : (0 <= Py.min (1 # 2) (backoff st + (5 # 100)))%Q /\
                    (Py.min (1 # 2) (backoff st + (5 # 100)) <= 1 # 2)%Q).
    { destruct (py_min_cases (1 # 2) (backoff st + (5 # 100))%Q)
        as [[-> H]|[-> H]]; split; lra. }
    destruct (poller_outcome P url ct rt (served w)) as [[f|]|e];
      eexists; eexists; (split; [reflexivity|]); apply Hreq;
      try (apply Hgrow); try lra.
    + unfold requested, history. cbn [log set_items].
      fold (history (got P url (TimeoutPair ct rt) w)).
      fold (requested (got P url (TimeoutPair ct rt) w)).
      apply requested_after_get.
    + rewrite requested_after_sleep. apply requested_after_get.
    + rewrite requested_after_sleep. apply requested_after_get.
Qed.

Lemma fetcher_loop_paced (P : platform) (url : string)
  (ct rt period t0 : Q) (n : nat) :
  forall (st : fetcher_state) (w : world),
    paced t0 period st w ->
    exists st' w',
      fetcher_loop P url ct rt period n st w = (Ret st', w') /\
      paced t0 period st' w'.
Proof.
  induction n as [|n IH]; intros st w Hp.
  - exists st, w. split; [reflexivity|exact Hp].
  - cbn [fetcher_loop]. unfold bind.
    destruct (fetcher_iteration_paced P url ct rt period t0 st w Hp)
      as (st1 & w1 & -> & Hp1).
    apply IH. exact Hp1.
Qed.

Lemma paced_at_start (t0 period : Q) :
  paced t0 period (fetcher_start t0) (boot t0).
Proof.
  unfold paced, fetcher_start. cbn.
  split; [lra|]. split; [lra|]. split; [ring|].
  intros k t Hk. destruct k; discriminate.
Qed.

(** ** C4: backoff *)

(** C4 (as amended). After any number of passes of the poller's loop
    the backoff lies between 0 and the cap 0.5, and the next pass returns
    and does one of three things: it waits for the due time and leaves
    the backoff alone; or its fetch succeeds, the frame is published, the
    backoff is reset to 0 and no backoff sleep happens; or its fetch
    fails, the backoff is first grown to [min(0.5, backoff + 0.05)] and
    the pass then sleeps for that grown value, which is at least the
    previous backoff and at most 0.5, and the queue is not touched. *)
Theorem backoff_grows_then_sleeps (P : platform) (url : string)
  (ct rt period t0 : Q) (n : nat) :
  exists (st : fetcher_state) (w : world),
    fetcher_loop P url ct rt period n (fetcher_start t0) (boot t0)
      = (Ret st, w) /\
    (0 <= backoff st)%Q /\ (backoff st <= 1 # 2)%Q /\
    exists (st' : fetcher_state) (w' : world),
      fetcher_iteration P url ct rt period st w = (Ret st', w') /\
      ((Qltb (clock w) (t_next st) = true /\
        backoff st' = backoff st /\
        slept PollerBackoff w' = slept PollerBackoff w /\
        requested w' = requested w)
       \/
       (Qltb (clock w) (t_next st) = false /\
        (exists f : ndarray,
            poller_outcome P url ct rt (served w) = Ret (Some f) /\
            items (queue w') = [f]) /\
        backoff st' = 0%Q /\
        slept PollerBackoff w' = slept PollerBackoff w)
       \/
       (Qltb (clock w) (t_next st) = false /\
        (poller_outcome P url ct rt (served w) = Ret None \/
         exists e, poller_outcome P url ct rt (served w) = Raise e) /\
        backoff st' = Py.min (1 # 2) (backoff st + (5 # 100))%Q /\
        slept PollerBackoff w' =
          (slept PollerBackoff w ++ [backoff st'])%list /\
        (backoff st' == backoff st + (1 # 20) \/ backoff st' == 1 # 2)%Q /\
        (backoff st <= backoff st')%Q /\
        (backoff st' <= 1 # 2)%Q /\
        queue w' = queue w)).
Proof.
  destruct (fetcher_loop_paced P url ct rt period t0 n _ _
              (paced_at_start t0 period))
    as (st & w & Hrun & Hb0 & Hb1 & _).
  exists st, w. split; [exact Hrun|]. split; [exact Hb0|].
  split; [exact Hb1|].
  rewrite fetcher_iteration_run.
  destruct (Qltb (clock w) (t_next st)) eqn:Edue.
  - eexists; eexists; split; [reflexivity|]. left.
    split; [reflexivity|]. split; [reflexivity|].
    split; [|apply requested_after_sleep].
    unfold sleep. cbn [snd]. read_log. reflexivity.
  - assert (Hgrow :
      (Py.min (1 # 2) (backoff st + (5 # 100)) == backoff st + (1 # 20) \/
       Py.min (1 # 2) (backoff st + (5 # 100)) == 1 # 2)%Q /\
      (backoff st <= Py.min (1 # 2) (backoff st + (5 # 100)))%Q /\
      (Py.min (1 # 2) (backoff st + (5 # 100)) <= 1 # 2)%Q).
    { destruct (py_min_cases (1 # 2) (backoff st + (5 # 100))%Q)
        as [[-> H]|[-> H]].
      - split; [right; reflexivity|]. split; lra.
      - split; [left; lra|]. split; lra. }
    destruct Hgrow as (Hg1 & Hg2 & Hg3).
    destruct (poller_outcome P url ct rt (served w)) as [[f|]|e].
    + eexists; eexists; split; [reflexivity|]. right; left.
      split; [reflexivity|].
      split; [exists f; split; reflexivity|].
      split; [reflexivity|].
      unfold slept, history. cbn [log set_items got rev].
      rewrite pick_app. cbn. rewrite ?app_nil_r. reflexivity.
    + eexists; eexists; split; [reflexivity|]. right; right.
      split; [reflexivity|]. split; [left; reflexivity|].
      cbn [backoff]. split; [reflexivity|].
      split; [unfold sleep; cbn [snd]; read_log; cbn;
              rewrite ?app_nil_r; reflexivity|].
      repeat split; assumption.
    + eexists; eexists; split; [reflexivity|]. right; right.
      split; [reflexivity|]. split; [right; exists e; reflexivity|].
      cbn [backoff]. split; [reflexivity|].
      split; [unfold sleep; cbn [snd]; read_log; cbn;
              rewrite ?app_nil_r; reflexivity|].
      repeat split; assumption.
Qed.

(** C4 as stated fails: the first failure after a success does not
    sleep for zero.  Fetches 0 and 3 succeed, fetches 1, 2 and 4 time out;
    the three backoff sleeps last 0.05, 0.10 and 0.05 seconds. *)
Lemma first_backoff_sleep_counterexample :
  let P := Lab.platform_of
             [Lab.ok (1 # 100) (Lab.jpeg Init.Byte.x0a);
              Lab.timed_out (1 # 100); Lab.timed_out (1 # 100);
              Lab.ok (1 # 100) (Lab.jpeg Init.Byte.x0b);
              Lab.timed_out (1 # 100)]
             (Lab.ok (1 # 100) (Lab.jpeg Init.Byte.x0c)) in
  let w := snd (fetcher P "http://192.168.4.1/capture.jpg" 5
                        (1 # 2) 1 1000 (boot 0)) in
  map (poller_outcome P "http://192.168.4.1/capture.jpg" (1 # 2) 1)
      [0; 1; 2; 3; 4]%nat =
    [Ret (Some (Lab.img Init.Byte.x0a)); Ret None; Ret None;
     Ret (Some (Lab.img Init.Byte.x0b)); Ret None] /\
  map Qred (slept PollerBackoff w) = [1 # 20; 1 # 10; 1 # 20]%Q /\
  ~ (nth 0 (slept PollerBackoff w) 0 == 0)%Q /\
  ~ (nth 2 (slept PollerBackoff w) 0 == 0)%Q.
Proof.
  vm_compute. repeat split; intros H; discriminate H.
Qed.

(** ** C6: pacing *)

Lemma fetcher_unfold (P : platform) (url : string) (passes : nat)
  (ct rt target_fps period t0 : Q) :
  fetcher_period target_fps = Ret period ->
  fetcher P url passes ct rt target_fps (boot t0) =
    fetcher_loop P url ct rt period passes (fetcher_start t0) (boot t0).
Proof.
  intros Hp. unfold fetcher, bind, lift, time_now. rewrite Hp. reflexivity.
Qed.

(** C6. The pacer does not keep the number of fetches within one
    unit of [R * W], and it does issue a catch-up burst.  The due time is
    moved by one period per fetch and never set back to the clock (line
    42), so the fetches that fell due during a long fetch follow one
    another back to back.  At 10 fetches per second, with a first fetch
    that takes one second and later fetches of one millisecond, all
    successful and without any backoff: ten fetches start within the 10 ms
    after the first one returns (where [R * W] is 0.1), and none in the
    0.9 s before that (where [R * W] is 9).  With a camera that answers
    every fetch in 30 ms the same loop fetches at 0, 0.1, 0.2, ... *)
Theorem catch_up_burst_after_slow_fetch :
  let url := "http://192.168.4.1/capture.jpg"%string in
  let P := Lab.platform_of [Lab.ok 1 (Lab.jpeg Init.Byte.x0a)]
                           (Lab.ok (1 # 1000) (Lab.jpeg Init.Byte.x0b)) in
  let w := snd (fetcher P url 12 (1 # 2) 1 10 (boot 0)) in
  let P' := Lab.platform_of [] (Lab.ok (3 # 100) (Lab.jpeg Init.Byte.x0b)) in
  let w' := snd (fetcher P' url 150 (1 # 2) 1 10 (boot 0)) in
  fetcher_period 10 = Ret (1 / 10)%Q /\
  forallb is_success
          (map (poller_outcome P url (1 # 2) 1) (seq 0 11)) = true /\
  slept PollerBackoff w = [] /\
  map Qred (requested w) =
    map Qred
        [0; 1; 1001 # 1000; 1002 # 1000; 1003 # 1000; 1004 # 1000;
         1005 # 1000; 1006 # 1000; 1007 # 1000; 1008 # 1000;
         1009 # 1000]%Q /\
  attempts_within w 1 (1 + (1 # 100)) = 10%nat /\
  ~ within_one_unit (attempts_within w 1 (1 + (1 # 100))) 10 (1 # 100) /\
  attempts_within w (1 # 10) 1 = 0%nat /\
  ~ within_one_unit (attempts_within w (1 # 10) 1) 10 (9 # 10) /\
  map Qred (requested w') =
    map Qred [0; 1 # 10; 2 # 10; 3 # 10; 4 # 10]%Q.
Proof.
  intros url P w P' w'.
  assert (H1 : attempts_within w 1 (1 + (1 # 100)) = 10%nat)
    by (vm_compute; reflexivity).
  assert (H2 : attempts_within w (1 # 10) 1 = 0%nat)
    by (vm_compute; reflexivity).
  split; [vm_compute; reflexivity|].
  split; [vm_compute; reflexivity|].
  split; [vm_compute; reflexivity|].
  split; [vm_compute; reflexivity|].
  split; [exact H1|]. split; [|split; [exact H2|split]].
  - rewrite H1. unfold within_one_unit. intros H.
    apply Qle_bool_iff in H. vm_compute in H. discriminate H.
  - rewrite H2. unfold within_one_unit. intros H.
    apply Qle_bool_iff in H. vm_compute in H. discriminate H.
  - vm_compute. reflexivity.
Qed.

(* ================================================================== *)
(** * Part III: further properties of the two programs                 *)
(* ================================================================== *)

(** ** The recorder on the wire and on the clock *)

Ltac read_wire :=
  unfold wire, history; cbn [log rev got];
  rewrite ?pick_app; cbn [pick kind_of];
  rewrite ?app_nil_r, <- ?app_assoc; cbn [app].

(** One tick: what it puts on the wire, how it moves the schedule and
    where it leaves the clock. *)
Lemma tick_full (P : platform) (args : recorder_args) (frame_size : Z * Z)
  (start : Q) (st : tick_state) (i : Z) (w : world) :
  match tick P args frame_size start st i w with
  | (Ret st', w') =>
      wire w' = (wire w ++ [KGet; KWrite])%list /\
      served w' = S (served w) /\
      Qeq_bool (fps args) 0 = false /\
      next_tick st' = (next_tick st + 1 / fps args)%Q /\
      (next_tick st' <= clock w')%Q /\
      (clock w + fetch_latency P args (served w) <= clock w')%Q /\
      ((clock w + fetch_latency P args (served w) <= next_tick st')%Q ->
       (clock w' == next_tick st')%Q)
  | (Raise e, w') =>
      (e = ZeroDivisionError /\ Qeq_bool (fps args) 0 = true /\
       wire w' = wire w) \/
      (e = CvError /\ Qeq_bool (fps args) 0 = false /\
       wire w' = (wire w ++ [KGet])%list)
  end.
Proof.
  unfold tick, bind, lift, Py.div, fetch_latency.
  destruct (Qeq_bool (fps args) 0) eqn:Efps.
  { left. repeat split. }
  rewrite fetch_jpeg_run. unfold got.
  set (step := (1 / fps args)%Q).
  set (lat := latency (net P (url args) (TimeoutOne (timeout args))
                           (served w))).
  assert (Hend : forall (nt now : Q),
    (if Qltb 0 (nt - now) then nt <= now + (nt - now) else nt <= now)%Q /\
    (if Qltb 0 (nt - now) then now <= now + (nt - now) else now <= now)%Q /\
    ((now <= nt)%Q ->
     if Qltb 0 (nt - now) then (now + (nt - now) == nt)%Q
     else (now == nt)%Q)).
  { intros nt now. destruct (Qltb 0 (nt - now)) eqn:E.
    - apply Qltb_true in E. repeat split; lra.
    - apply Qltb_false in E. repeat split; lra. }
  destruct (jpeg_outcome P (net P (url args) (TimeoutOne (timeout args))
                                (served w))) as [[f|]|e] eqn:Eo.
  - unfold resize_to.
    destruct (size_eqb frame_size (cols f, rows f)); simpl.
    + destruct (verbose args); simpl;
        specialize (Hend (next_tick st + step)%Q (clock w + lat)%Q);
        destruct (Qltb 0 (next_tick st + step - (clock w + lat))); simpl;
        destruct Hend as (H1 & H2 & H3);
        (split; [read_wire; reflexivity|]);
        repeat split; assumption.
    + destruct (cv2_resize P f frame_size) as [g|]; simpl.
      * destruct (verbose args); simpl;
          specialize (Hend (next_tick st + step)%Q (clock w + lat)%Q);
          destruct (Qltb 0 (next_tick st + step - (clock w + lat))); simpl;
          destruct Hend as (H1 & H2 & H3);
          (split; [read_wire; reflexivity|]);
          repeat split; assumption.
      * right. split; [reflexivity|]. split; [reflexivity|].
        read_wire. reflexivity.
  - destruct (verbose args); simpl;
      specialize (Hend (next_tick st + step)%Q (clock w + lat)%Q);
      destruct (Qltb 0 (next_tick st + step - (clock w + lat))); simpl;
      destruct Hend as (H1 & H2 & H3);
      (split; [read_wire; reflexivity|]);
      repeat split; assumption.
  - right. apply jpeg_outcome_raises in Eo. subst e.
    split; [reflexivity|]. split; [reflexivity|]. read_wire. reflexivity.
Qed.

Lemma ticks_wire_succ (n : nat) :
  ticks_wire (S n) = KGet :: KWrite :: ticks_wire n.
Proof. reflexivity. Qed.

(** The timing loop as a whole. *)
Lemma loop_full (P : platform) (args : recorder_args) (frame_size : Z * Z)
  (start : Q) (xs : list Z) :
  forall (st : tick_state) (w : world) r w',
    for_each xs (tick P args frame_size start) st w = (r, w') ->
    match r with
    | Ret st' =>
        wire w' = (wire w ++ ticks_wire (List.length xs))%list /\
        (next_tick st' ==
         next_tick st
         + inject_Z (Z.of_nat (List.length xs)) * (1 / fps args))%Q /\
        ((next_tick st <= clock w)%Q -> (next_tick st' <= clock w')%Q) /\
        ((clock w == next_tick st)%Q ->
         (forall k : nat, (k < List.length xs)%nat ->
            (fetch_latency P args (served w + k) <= 1 / fps args)%Q) ->
         (clock w' == next_tick st')%Q)
    | Raise e =>
        exists m : nat,
          (m < List.length xs)%nat /\
          ((e = CvError /\
            wire w' = (wire w ++ ticks_wire m ++ [KGet])%list) \/
           (e = ZeroDivisionError /\ Qeq_bool (fps args) 0 = true /\
            wire w' = (wire w ++ ticks_wire m)%list))
    end.
Proof.
  induction xs as [|x xs IH]; intros st w r w' Hrun.
  - injection Hrun as <- <-. cbn [List.length ticks_wire repeat List.concat].
    rewrite app_nil_r. split; [reflexivity|].
    split; [cbn; ring|]. split; [tauto|]. intros H _. exact H.
  - cbn [for_each] in Hrun. unfold bind in Hrun.
    pose proof (tick_full P args frame_size start st x w) as Ht.
    destruct (tick P args frame_size start st x w) as [[st1|e] w1].
    + destruct Ht as (Hw & Hs & Hfps & Hnt & Hle & Hlat & Hex).
      specialize (IH st1 w1 r w' Hrun).
      destruct r as [st'|e].
      * destruct IH as (Hw' & Hnt' & Hle' & Hex').
        cbn [List.length]. rewrite ticks_wire_succ.
        split; [rewrite Hw', Hw, <- app_assoc; reflexivity|].
        split.
        { rewrite Hnt', Hnt. rewrite Nat2Z.inj_succ. unfold Z.succ.
          rewrite inject_Z_plus. change (inject_Z 1) with 1%Q. ring. }
        split; [intros _; apply Hle'; exact Hle|].
        intros Hclock Hlats. apply Hex'.
        -- apply Hex. rewrite Hnt, Hclock.
           specialize (Hlats 0%nat ltac:(lia)).
           rewrite Nat.add_0_r in Hlats.
           apply Qplus_le_r. exact Hlats.
        -- intros k Hk. rewrite Hs.
           replace (S (served w) + k)%nat with (served w + S k)%nat by lia.
           apply Hlats. lia.
      * destruct IH as (m & Hm & Hcase). exists (S m).
        split; [cbn [List.length]; lia|].
        rewrite ticks_wire_succ.
        destruct Hcase as [(He & Hw')|(He & Hz & Hw')]; [left|right];
          repeat split; try assumption;
          rewrite Hw', Hw, <- app_assoc; reflexivity.
    + injection Hrun as <- <-. exists 0%nat.
      split; [cbn [List.length]; lia|].
      cbn [ticks_wire repeat List.concat app]. rewrite app_nil_r.
      destruct Ht as [(He & Hz & Hw)|(He & Hz & Hw)]; [right|left];
        repeat split; assumption.
Qed.

(** Like [read_wire], for the left-hand side only. *)
Ltac read_wire_lhs :=
  unfold wire at 1, history; cbn [log rev got];
  rewrite ?pick_app; cbn [pick kind_of]; rewrite ?app_nil_r.

(** A session, from the opening of the writer on. *)
Lemma main_session_full (P : platform) (args : recorder_args)
  (frame_size : Z * Z) (frame0 : ndarray) (w : world) r w' :
  main_session P args frame_size frame0 w = (r, w') ->
  (writer_opens P (out args) (pick_fourcc (codec args)) (fps args)
                frame_size = false /\
   r = Ret tt /\
   wire w' = (wire w ++ [KOpen])%list /\
   exists ms, printed w' = (ms ++ [MsgErrWriter])%list) \/
  (writer_opens P (out args) (pick_fourcc (codec args)) (fps args)
                frame_size = true /\
   match r with
   | Ret _ =>
       wire w' =
         (wire w ++ KOpen :: KWrite :: ticks_wire (tick_count args)
               ++ [KRelease])%list /\
       (exists ms,
           printed w' =
             (ms ++ [MsgDone (total_frames args) (clock w' - clock w)
                             (out args)])%list) /\
       (inject_Z (Z.of_nat (tick_count args)) * (1 / fps args)
        <= clock w' - clock w)%Q /\
       ((forall k : nat, (k < tick_count args)%nat ->
           (fetch_latency P args (served w + k) <= 1 / fps args)%Q) ->
        (clock w' - clock w ==
         inject_Z (Z.of_nat (tick_count args)) * (1 / fps args))%Q)
   | Raise e =>
       e = CvError /\
       exists m : nat,
         (m < tick_count args)%nat /\
         wire w' =
           (wire w ++ KOpen :: KWrite :: ticks_wire m ++ [KGet])%list
   end).
Proof.
  unfold main_session, tick_count. fold (total_frames args). intros Hrun.
  set (note := andb _ _) in Hrun.
  unfold bind at 1 in Hrun.
  assert (Hnote : exists w0, when note (print MsgNoteAvi) w = (Ret tt, w0) /\
                    served w0 = served w /\ wire w0 = wire w /\
                    clock w0 = clock w).
  { destruct note; simpl; eexists; (split; [reflexivity|]);
      repeat split; read_wire; reflexivity. }
  destruct Hnote as (w0 & Ew0 & Hs0 & Hw0 & Hc0).
  rewrite Ew0 in Hrun.
  unfold bind at 1 in Hrun. cbn [emit] in Hrun.
  destruct (writer_opens P (out args) (pick_fourcc (codec args)) (fps args)
                         frame_size) eqn:Eopen; cbn [negb] in Hrun.
  - right. split; [reflexivity|].
    unfold bind at 1, print at 1, emit at 1 in Hrun.
    unfold bind at 1, time_now at 1 in Hrun.
    unfold bind at 1, emit at 1 in Hrun.
    unfold bind at 1 in Hrun.
    match type of Hrun with
    | context [for_each ?xs ?body ?st ?w1] =>
        destruct (for_each xs body st w1) as [r1 w2] eqn:Eloop
    end.
    apply loop_full in Eloop. rewrite range_length in Eloop.
    cbn [next_tick clock served] in Eloop.
    match type of Eloop with
    | context [wire ?wl] =>
        assert (Hbase : wire wl = (wire w ++ [KOpen; KWrite])%list)
          by (read_wire_lhs; fold (history w0); fold (wire w0);
              rewrite Hw0, <- !app_assoc; reflexivity);
        rewrite Hbase in Eloop
    end.
    rewrite Hs0, Hc0 in Eloop.
    destruct r1 as [st'|e].
    + destruct Eloop as (Hw & Hnt & Hle & Hex).
      cbn in Hrun. injection Hrun as <- <-. cbn [clock].
      split; [read_wire_lhs; fold (history w2); fold (wire w2);
              rewrite Hw, <- !app_assoc; reflexivity|].
      split; [eexists; unfold printed, history; cbn [log rev];
              rewrite pick_app; cbn [pick is_print];
              rewrite Hc0; reflexivity|].
      specialize (Hle ltac:(apply Qle_refl)).
      split; [rewrite Hnt in Hle; lra|].
      intros Hlats. specialize (Hex ltac:(reflexivity) Hlats).
      rewrite Hex, Hnt. ring.
    + injection Hrun as <- <-.
      destruct Eloop as (m & Hm & [(He & Hw)|(He & Hz & _)]).
      * split; [exact He|]. exists m. split; [exact Hm|].
        rewrite Hw, <- app_assoc. reflexivity.
      * apply total_frames_needs_fps in Hz. rewrite Hz in Hm.
        cbn in Hm. lia.
  - left. cbn in Hrun. injection Hrun as <- <-.
    split; [reflexivity|]. split; [reflexivity|].
    split; [read_wire_lhs; fold (history w0); fold (wire w0);
            rewrite Hw0; reflexivity|].
    eexists. unfold printed, history. cbn [log rev].
    rewrite !pick_app. cbn [pick is_print]. rewrite app_nil_r.
    reflexivity.
Qed.

(** A whole run of the recorder, started at time [t0]. *)
Lemma main_full (P : platform) (args : recorder_args) (t0 : Q) r w' :
  main P args (boot t0) = (r, w') ->
  (wire w' = [KGet] /\
   (r = Ret tt \/ r = Raise CvError) /\
   forall first frame_size frame0,
     fetch_outcome P args 0 = Ret (Some first) ->
     ~ session_start P args first frame_size frame0) \/
  (exists (first : ndarray) (frame_size : Z * Z) (frame0 : ndarray),
      fetch_outcome P args 0 = Ret (Some first) /\
      session_start P args first frame_size frame0 /\
      session_report P args (t0 + fetch_latency P args 0) frame_size r w').
Proof.
  unfold main. unfold bind at 1, print at 1, emit at 1.
  unfold bind at 1. rewrite fetch_jpeg_run. cbn [served boot].
  fold (fetch_outcome P args 0).
  destruct (fetch_outcome P args 0) as [[first|]|e] eqn:Efirst.
  - set (w1 := got P _ _ _).
    assert (Hw1 : wire w1 = [KGet] /\ served w1 = 1%nat /\
                  clock w1 = (t0 + fetch_latency P args 0)%Q)
      by (repeat split; reflexivity).
    destruct Hw1 as (Hw1 & Hs1 & Hc1).
    assert (Hsession : forall fs f0,
      main_session P args fs f0 w1 = (r, w') ->
      session_report P args (t0 + fetch_latency P args 0) fs r w').
    { intros fs f0 Hrun. apply main_session_full in Hrun.
      rewrite Hw1, Hs1, Hc1 in Hrun. cbn [app] in Hrun.
      unfold session_report.
      destruct Hrun as [Hclosed|(Hopen & Hrest)]; [left; exact Hclosed|].
      right. split; [exact Hopen|].
      destruct r as [u|e]; [|exact Hrest].
      destruct Hrest as (Hw & Hp & Hlow & Hex).
      split; [exact Hw|]. split; [exact Hp|]. split; [exact Hlow|].
      intros Hlats. apply Hex. intros k Hk.
      apply Hlats. lia. }
    destruct (String.eqb (resize args) "") eqn:Eres; cbn [negb].
    + apply String.eqb_eq in Eres. intros Hrun. right.
      exists first, (cols first, rows first), first.
      split; [reflexivity|].
      split; [left; repeat split; assumption|].
      apply (Hsession _ _ Hrun).
    + apply String.eqb_neq in Eres.
      destruct (parse_wh P (lower (resize args))) as [[out_w out_h]|]
        eqn:Eparse.
      * unfold bind at 1, resize_to.
        destruct (cv2_resize P first (out_w, out_h)) as [g|] eqn:Er.
        -- cbn [ret]. intros Hrun. right.
           exists first, (out_w, out_h), g.
           split; [reflexivity|].
           split; [right; repeat split; assumption|].
           apply (Hsession _ _ Hrun).
        -- cbn [raise]. intros Hrun. injection Hrun as <- <-.
           left. split; [exact Hw1|]. split; [right; reflexivity|].
           intros f fs f0 Hf [(Hres & _)|(_ & Hp & Hr)];
             [contradiction|].
           injection Hf as <-. congruence.
      * intros Hrun. cbn in Hrun. injection Hrun as <- <-.
        left. split; [reflexivity|]. split; [left; reflexivity|].
        intros f fs f0 Hf [(Hres & _)|(_ & Hp & Hr)];
          [contradiction|congruence].
  - intros Hrun. cbn in Hrun. injection Hrun as <- <-.
    left. split; [reflexivity|]. split; [left; reflexivity|].
    intros f fs f0 Hf. discriminate.
  - intros Hrun. injection Hrun as <- <-.
    unfold fetch_outcome in Efirst. apply jpeg_outcome_raises in Efirst.
    left. split; [reflexivity|]. split; [right; congruence|].
    intros f fs f0 Hf. discriminate.
Qed.

Lemma session_start_functional (P : platform) (args : recorder_args)
  (first : ndarray) fs fs' f0 f0' :
  session_start P args first fs f0 ->
  session_start P args first fs' f0' ->
  fs = fs' /\ f0 = f0'.
Proof.
  intros [(H1 & -> & ->)|(H1 & Hp & Hr)] [(H2 & -> & ->)|(H2 & Hp' & Hr')];
    try contradiction.
  - split; reflexivity.
  - rewrite Hp in Hp'. injection Hp' as <-.
    rewrite Hr in Hr'. injection Hr' as <-. split; reflexivity.
Qed.

(** ** Early exits of the recorder *)

(** X1. When the first fetch succeeds but the [--resize] option does
    not parse, [main] prints the resize diagnostic and returns: one GET
    was issued, no writer was opened and no frame was written. *)
Theorem malformed_resize_aborts (P : platform) (args : recorder_args)
  (t0 : Q) (first : ndarray) :
  fetch_outcome P args 0 = Ret (Some first) ->
  resize args <> ""%string ->
  parse_wh P (lower (resize args)) = None ->
  let run := main P args (boot t0) in
  fst run = Ret tt /\
  history (snd run) =
    [EvPrint (MsgFetchingFirst (url args));
     EvGet (url args) (TimeoutOne (timeout args)) t0;
     EvPrint MsgErrResize] /\
  opened (snd run) = [] /\
  written (snd run) = [].
Proof.
  intros Hfirst Hres Hparse. cbv zeta.
  destruct (main P args (boot t0)) as [r w'] eqn:Erun.
  revert Erun. unfold main. unfold bind at 1, print at 1, emit at 1.
  unfold bind at 1. rewrite fetch_jpeg_run. cbn [served boot].
  fold (fetch_outcome P args 0). rewrite Hfirst.
  apply String.eqb_neq in Hres. rewrite Hres. cbn [negb].
  rewrite Hparse.
  intros Erun. cbn in Erun. injection Erun as <- <-.
  repeat split.
Qed.

Lemma malformed_resize_aborts_witness :
  let P := Lab.platform_of [Lab.ok (1 # 100) (Lab.jpeg Init.Byte.x0a)]
                           (Lab.timed_out 1) in
  let args := Lab.with_resize Lab.default_args "1280*720" in
  fst (main P args (boot 0)) = Ret tt /\
  opened (snd (main P args (boot 0))) = [] /\
  written (snd (main P args (boot 0))) = [].
Proof.
  intros P args.
  assert (Hne : resize args <> ""%string) by discriminate.
  pose proof (malformed_resize_aborts P args 0 (Lab.img Init.Byte.x0a)
                eq_refl Hne eq_refl) as H.
  cbv zeta in H. destruct H as (Hr & _ & Ho & Hw).
  repeat split; assumption.
Defined.

Lemma nothing_written_without_write (h : list event) :
  ~ In KWrite (pick kind_of h) -> pick is_write h = [].
Proof.
  induction h as [|e h IH]; [reflexivity|].
  destruct e; cbn [pick kind_of is_write]; intros Hno;
    try (apply IH; intros Hin; apply Hno; try right; exact Hin).
  exfalso. apply Hno. left. reflexivity.
Qed.

(** X2. When the video writer does not open, [main] prints the writer
    diagnostic and returns without fetching again, writing or releasing:
    the wire shows the first GET and the attempt to open, nothing else. *)
Theorem closed_writer_aborts (P : platform) (args : recorder_args)
  (t0 : Q) (first : ndarray) (frame_size : Z * Z) (frame0 : ndarray) :
  fetch_outcome P args 0 = Ret (Some first) ->
  session_start P args first frame_size frame0 ->
  writer_opens P (out args) (pick_fourcc (codec args)) (fps args)
               frame_size = false ->
  let run := main P args (boot t0) in
  fst run = Ret tt /\
  wire (snd run) = [KGet; KOpen] /\
  written (snd run) = [] /\
  exists ms, printed (snd run) = (ms ++ [MsgErrWriter])%list.
Proof.
  intros Hfirst Hstart Hclosed. cbv zeta.
  destruct (main P args (boot t0)) as [r w'] eqn:Erun. cbn [fst snd].
  pose proof (main_full P args t0 r w' Erun) as Hfull.
  destruct Hfull as [(_ & _ & Hno)|(f & fs & f0 & Hf & Hs & Hrep)].
  { exfalso. exact (Hno _ _ _ Hfirst Hstart). }
  rewrite Hfirst in Hf. injection Hf as <-.
  destruct (session_start_functional _ _ _ _ _ _ _ Hstart Hs) as [<- <-].
  destruct Hrep as [(_ & Hr & Hw & Hp)|(Hopen & _)]; [|congruence].
  split; [exact Hr|]. split; [exact Hw|]. split; [|exact Hp].
  apply nothing_written_without_write. fold (wire w'). rewrite Hw.
  intros [H|[H|[]]]; discriminate.
Qed.

Lemma closed_writer_aborts_witness :
  let P := Rig.with_closed_writer
             (Lab.platform_of [Lab.ok (1 # 100) (Lab.jpeg Init.Byte.x0a)]
                              (Lab.ok (1 # 100) (Lab.jpeg Init.Byte.x0b))) in
  fst (main P Lab.default_args (boot 0)) = Ret tt /\
  wire (snd (main P Lab.default_args (boot 0))) = [KGet; KOpen] /\
  written (snd (main P Lab.default_args (boot 0))) = [].
Proof.
  intros P.
  assert (Hstart : session_start P Lab.default_args (Lab.img Init.Byte.x0a)
                     (2, 2) (Lab.img Init.Byte.x0a))
    by (left; repeat split).
  pose proof (closed_writer_aborts P Lab.default_args 0
                (Lab.img Init.Byte.x0a) (2, 2) (Lab.img Init.Byte.x0a)
                eq_refl Hstart eq_refl) as H.
  cbv zeta in H. destruct H as (Hr & Hw & Hwr & _).
  repeat split; assumption.
Defined.

(** ** The recorder's protocol with the camera and the writer *)


(** X3. A run of the recorder that returns after writing anything has
    followed this protocol: one GET for the first frame, the writer
    opened once, frame 0 written, then for each tick exactly one GET
    followed by exactly one write (no retry, no skipped tick), and one
    release at the very end. *)
Theorem completed_session_protocol (P : platform) (args : recorder_args)
  (t0 : Q) :
  let run := main P args (boot t0) in
  fst run = Ret tt ->
  In KWrite (wire (snd run)) ->
  wire (snd run) =
    KGet :: KOpen :: KWrite
         :: (ticks_wire (tick_count args) ++ [KRelease])%list.
Proof.
  cbv zeta. intros Hret Hwrote.
  destruct (main P args (boot t0)) as [r w'] eqn:Erun. cbn [fst snd] in *.
  subst r.
  destruct (main_full P args t0 _ w' Erun)
    as [(Hw & _)|(f & fs & f0 & _ & _ & Hrep)].
  { rewrite Hw in Hwrote. destruct Hwrote as [H|[]]; discriminate. }
  destruct Hrep as [(_ & _ & Hw & _)|(_ & Hw & _)]; [|exact Hw].
  rewrite Hw in Hwrote. destruct Hwrote as [H|[H|[]]]; discriminate.
Qed.

Lemma completed_session_protocol_witness :
  let P := Lab.platform_of
             [Lab.ok (1 # 100) (Lab.jpeg Init.Byte.x0a);
              Lab.timed_out (3 # 2);
              Lab.ok (1 # 100) (Lab.jpeg Init.Byte.x0b)]
             (Lab.timed_out 1) in
  let args := Lab.with_length Lab.default_args 10 (3 # 10) in
  wire (snd (main P args (boot 0))) =
    [KGet; KOpen; KWrite; KGet; KWrite; KGet; KWrite; KRelease].
Proof.
  intros P args.
  assert (Hret : fst (main P args (boot 0)) = Ret tt)
    by (vm_compute; reflexivity).
  assert (Hin : In KWrite (wire (snd (main P args (boot 0)))))
    by (vm_compute; right; right; left; reflexivity).
  exact (completed_session_protocol P args 0 Hret Hin).
Defined.



(** With [--fps 0] the session writes the first frame and ends without
    entering the loop, whatever [--seconds] is. *)
Example zero_fps_never_divides :
  let P := Lab.platform_of []
                           (Lab.ok (1 # 100) (Lab.jpeg Init.Byte.x0a)) in
  let args := Lab.with_length Lab.default_args 0 30 in
  fst (main P args (boot 0)) = Ret tt /\
  wire (snd (main P args (boot 0))) = [KGet; KOpen; KWrite; KRelease].
Proof. vm_compute. repeat split. Qed.

(** ** The recorder's clock *)

(** X5. A run of the recorder that returns after writing anything
    reports, in its final message, an elapsed time that is never shorter
    than the schedule, one period [1/fps] per tick: the recorder may fall
    behind but never runs ahead.  When no fetch of a tick takes longer
    than one period, the elapsed time is exactly the schedule: time lost
    in a fetch is made up by sleeping less, with no drift. *)
Theorem session_keeps_schedule (P : platform) (args : recorder_args)
  (t0 : Q) :
  let run := main P args (boot t0) in
  fst run = Ret tt ->
  In KWrite (wire (snd run)) ->
  exists (ms : list message) (elapsed : Q),
    printed (snd run) =
      (ms ++ [MsgDone (total_frames args) elapsed (out args)])%list /\
    (inject_Z (Z.of_nat (tick_count args)) * (1 / fps args)
     <= elapsed)%Q /\
    ((forall k : nat, (1 <= k <= tick_count args)%nat ->
        (fetch_latency P args k <= 1 / fps args)%Q) ->
     (elapsed ==
      inject_Z (Z.of_nat (tick_count args)) * (1 / fps args))%Q).
Proof.
  cbv zeta. intros Hret Hwrote.
  destruct (main P args (boot t0)) as [r w'] eqn:Erun. cbn [fst snd] in *.
  subst r.
  destruct (main_full P args t0 _ w' Erun)
    as [(Hw & _)|(f & fs & f0 & _ & _ & Hrep)].
  { rewrite Hw in Hwrote. destruct Hwrote as [H|[]]; discriminate. }
  destruct Hrep as [(_ & _ & Hw & _)|(_ & _ & (ms & Hp) & Hlow & Hex)].
  { rewrite Hw in Hwrote. destruct Hwrote as [H|[H|[]]]; discriminate. }
  exists ms, (clock w' - (t0 + fetch_latency P args 0))%Q.
  split; [exact Hp|]. split; [exact Hlow|exact Hex].
Qed.

Lemma session_keeps_schedule_witness :
  let P := Lab.platform_of
             [Lab.ok (1 # 100) (Lab.jpeg Init.Byte.x0a);
              Lab.timed_out (1 # 10);
              Lab.ok (1 # 100) (Lab.jpeg Init.Byte.x0b)]
             (Lab.timed_out 1) in
  let args := Lab.with_length Lab.default_args 10 (3 # 10) in
  exists (ms : list message) (elapsed : Q),
    printed (snd (main P args (boot 0))) =
      (ms ++ [MsgDone 3 elapsed "capture.mp4"])%list /\
    (elapsed == 2 # 10)%Q.
Proof.
  intros P args.
  assert (Hret : fst (main P args (boot 0)) = Ret tt)
    by (vm_compute; reflexivity).
  assert (Hin : In KWrite (wire (snd (main P args (boot 0)))))
    by (vm_compute; right; right; left; reflexivity).
  destruct (session_keeps_schedule P args 0 Hret Hin)
    as (ms & elapsed & Hp & _ & Hex).
  exists ms, elapsed. split; [exact Hp|].
  rewrite Hex; [reflexivity|].
  intros k Hk. change (tick_count args) with 2%nat in Hk.
  assert (Hcases : k = 1%nat \/ k = 2%nat) by lia.
  destruct Hcases as [-> | ->]; vm_compute; discriminate.
Defined.

(** ** The poller's rate *)

Lemma requested_set_items (w : world) (l : list ndarray) :
  requested (set_items w l) = requested w.
Proof. reflexivity. Qed.

Lemma fetcher_iteration_on_time (P : platform) (url : string)
  (ct rt period t0 : Q) (n : nat) (st : fetcher_state) (w : world) :
  quick P url ct rt period n ->
  (served w < n)%nat ->
  on_time t0 period st w ->
  exists st' w',
    fetcher_iteration P url ct rt period st w = (Ret st', w') /\
    on_time t0 period st' w' /\
    (served w' <= S (served w))%nat.
Proof.
  intros Hq Hn (Hclock & Hserved & Hnext & Htimes).
  rewrite fetcher_iteration_run.
  destruct (Qltb (clock w) (t_next st)) eqn:Edue.
  - apply Qltb_true in Edue.
    eexists; eexists; split; [reflexivity|]. split; [|cbn; lia].
    unfold on_time. rewrite requested_after_sleep.
    split; [|repeat split; assumption].
    unfold sleep. cbn [snd clock].
    destruct (py_min_cases (2 # 1000) (t_next st - clock w)%Q)
      as [[-> H]|[-> H]]; lra.
  - apply Qltb_false in Edue.
    destruct (Hq (served w) Hn) as [Hok Hlat].
    destruct (poller_outcome P url ct rt (served w)) as [[f|]|e];
      try discriminate Hok.
    eexists; eexists; split; [reflexivity|]. split; [|cbn; lia].
    unfold on_time. rewrite requested_set_items, requested_after_get.
    cbn [t_next clock served set_items got].
    rewrite length_app. cbn [List.length].
    split; [lra|]. split; [lia|]. split.
    + rewrite Nat2Z.inj_add, inject_Z_plus. rewrite Hnext.
      change (inject_Z (Z.of_nat 1)) with 1%Q. ring.
    + intros k t Hk.
      destruct (Nat.lt_ge_cases k (List.length (requested w))) as [Hlt|Hge].
      * rewrite nth_error_app1 in Hk by exact Hlt. apply Htimes. exact Hk.
      * rewrite nth_error_app2 in Hk by exact Hge.
        destruct (k - List.length (requested w))%nat as [|m] eqn:Em;
          [|destruct m; discriminate].
        cbn in Hk. injection Hk as <-.
        assert (k = List.length (requested w)) as -> by lia.
        rewrite <- Hnext. lra.
Qed.

Lemma fetcher_loop_on_time (P : platform) (url : string)
  (ct rt period t0 : Q) (n : nat) :
  quick P url ct rt period n ->
  forall (m : nat) (st : fetcher_state) (w : world),
    (served w + m <= n)%nat ->
    on_time t0 period st w ->
    exists st' w',
      fetcher_loop P url ct rt period m st w = (Ret st', w') /\
      on_time t0 period st' w'.
Proof.
  intros Hq. induction m as [|m IH]; intros st w Hn Hp.
  - exists st, w. split; [reflexivity|exact Hp].
  - cbn [fetcher_loop]. unfold bind.
    destruct (fetcher_iteration_on_time P url ct rt period t0 n st w Hq
                ltac:(lia) Hp)
      as (st1 & w1 & -> & Hp1 & Hs1).
    apply IH; [lia|exact Hp1].
Qed.

Lemma on_time_at_start (t0 period : Q) :
  on_time t0 period (fetcher_start t0) (boot t0).
Proof.
  unfold on_time, fetcher_start. cbn.
  split; [lra|]. split; [reflexivity|]. split; [ring|].
  intros k t Hk. destruct k; discriminate.
Qed.

Lemma spaced_tail (c p x : Q) (l : list Q) :
  spaced c p (x :: l) -> (x == c)%Q /\ spaced (c + p) p l.
Proof.
  intros H. split.
  - rewrite (H 0%nat x eq_refl). cbn. ring.
  - intros k t Hk. rewrite (H (S k) t Hk).
    rewrite Nat2Z.inj_succ. unfold Z.succ. rewrite inject_Z_plus.
    change (inject_Z 1) with 1%Q. ring.
Qed.

Lemma count_step (n : nat) (p : Q) :
  (inject_Z (Z.of_nat (S n)) * p == inject_Z (Z.of_nat n) * p + p)%Q.
Proof.
  rewrite Nat2Z.inj_succ. unfold Z.succ. rewrite inject_Z_plus.
  change (inject_Z 1) with 1%Q. ring.
Qed.

Lemma count_nonneg (n : nat) (p : Q) :
  (0 <= p)%Q -> (0 <= inject_Z (Z.of_nat n) * p)%Q.
Proof.
  intros Hp. apply Qmult_le_0_compat; [|exact Hp].
  change 0%Q with (inject_Z 0). rewrite <- Zle_Qle. lia.
Qed.

(** Equally spaced times in a window: no more than fit. *)
Lemma spaced_window_upper (a b p : Q) :
  (0 <= p)%Q ->
  forall (l : list Q) (c : Q),
    spaced c p l ->
    let n := List.length
               (filter (fun t => andb (Qle_bool a t) (Qltb t b)) l) in
    n = 0%nat \/
    ((inject_Z (Z.of_nat n) * p <= b - a + p)%Q /\
     (inject_Z (Z.of_nat n) * p <= b - c + p)%Q).
Proof.
  intros Hp. induction l as [|x l IH]; intros c Hsp; [left; reflexivity|].
  destruct (spaced_tail c p x l Hsp) as [Hx Hl].
  specialize (IH (c + p)%Q Hl). cbv zeta in *. cbn [filter].
  destruct (Qle_bool a x) eqn:Ea; cbn [andb].
  - apply Qle_bool_iff in Ea.
    destruct (Qltb x b) eqn:Eb.
    + apply Qltb_true in Eb. right. cbn [List.length].
      rewrite count_step.
      destruct IH as [-> | [_ IH2]].
      * change (inject_Z (Z.of_nat 0)) with 0%Q. split; lra.
      * split; lra.
    + destruct IH as [IH | [IH1 IH2]]; [left; exact IH|right].
      split; lra.
  - destruct IH as [IH | [IH1 IH2]]; [left; exact IH|right].
    split; lra.
Qed.

(** Equally spaced times in a window that ends before they do: no fewer
    than fit. *)
Lemma spaced_window_lower (a b p : Q) :
  (0 <= p)%Q ->
  forall (l : list Q) (c : Q),
    spaced c p l ->
    (b <= c + inject_Z (Z.of_nat (List.length l)) * p)%Q ->
    let n := List.length
               (filter (fun t => andb (Qle_bool a t) (Qltb t b)) l) in
    (b - a - p <= inject_Z (Z.of_nat n) * p)%Q \/
    (b - c <= inject_Z (Z.of_nat n) * p)%Q.
Proof.
  intros Hp. induction l as [|x l IH]; intros c Hsp Hb.
  - right. cbn in *. lra.
  - destruct (spaced_tail c p x l Hsp) as [Hx Hl].
    cbn [List.length] in Hb. rewrite count_step in Hb.
    specialize (IH (c + p)%Q Hl ltac:(lra)). cbv zeta in *. cbn [filter].
    pose proof (count_nonneg
      (List.length (filter (fun t => andb (Qle_bool a t) (Qltb t b)) l))
      p Hp) as Hnn.
    destruct (Qle_bool a x) eqn:Ea; cbn [andb].
    + apply Qle_bool_iff in Ea.
      destruct (Qltb x b) eqn:Eb.
      * cbn [List.length]. rewrite count_step.
        destruct IH as [IH|IH]; [left|right]; lra.
      * apply Qltb_false in Eb. right. lra.
    + assert (Ha : (x < a)%Q).
      { apply Qnot_le_lt. intros H. apply Qle_bool_iff in H. congruence. }
      destruct IH as [IH|IH]; left; lra.
Qed.

(** X16. When every fetch succeeds and none takes longer than one
    period, the poller keeps its rate: the [k]-th fetch starts at exactly
    [t0 + k * period], with [period = 1 / max(0.1, target_fps)]; no window
    of time holds more than one fetch above [rate * length]; and a window
    that lies between the start of the loop and the due time of the next
    fetch holds a number of fetches within one unit of [rate * length],
    where [rate] is [max(0.1, target_fps)]. *)
Theorem quick_fetches_keep_the_rate (P : platform) (url : string)
  (passes : nat) (ct rt target_fps t0 : Q) :
  let rate := Py.max (1 # 10) target_fps in
  let period := (1 / rate)%Q in
  quick P url ct rt period passes ->
  let w := snd (fetcher P url passes ct rt target_fps (boot t0)) in
  (forall (k : nat) (t : Q),
      nth_error (requested w) k = Some t ->
      (t == t0 + inject_Z (Z.of_nat k) * period)%Q) /\
  (forall a b : Q,
      (a <= b)%Q ->
      (inject_Z (Z.of_nat (attempts_within w a b)) <= rate * (b - a) + 1)%Q)
  /\
  (forall a b : Q,
      (t0 <= a)%Q -> (a <= b)%Q ->
      (b <= t0 + inject_Z (Z.of_nat (List.length (requested w))) * period)%Q ->
      within_one_unit (attempts_within w a b) rate (b - a)).
Proof.
  intros rate period Hq w.
  destruct (fetcher_period_run target_fps) as (Hp & Hrate & Hpos & _).
  fold rate in Hp, Hrate, Hpos. fold period in Hp, Hpos.
  assert (Hrate0 : (0 < rate)%Q) by lra.
  assert (Hrp : (rate * period == 1)%Q)
    by (unfold period; field; lra).
  assert (Hsp : spaced t0 period (requested w)).
  { unfold w.
    rewrite (fetcher_unfold P url passes ct rt target_fps period t0 Hp).
    destruct (fetcher_loop_on_time P url ct rt period t0 passes Hq
                passes (fetcher_start t0) (boot t0) (le_n _)
                (on_time_at_start t0 period))
      as (st & w1 & -> & _ & _ & _ & Htimes).
    exact Htimes. }
  assert (Hup : forall a b : Q, (a <= b)%Q ->
            (inject_Z (Z.of_nat (attempts_within w a b))
             <= rate * (b - a) + 1)%Q).
  { intros a b Hab.
    destruct (spaced_window_upper a b period (Qlt_le_weak _ _ Hpos)
                (requested w) t0 Hsp) as [H | [H _]];
      fold (attempts_within w a b) in H.
    - rewrite H. change (inject_Z (Z.of_nat 0)) with 0%Q.
      assert (0 <= rate * (b - a))%Q
        by (apply Qmult_le_0_compat; lra).
      lra.
    - set (n := inject_Z (Z.of_nat (attempts_within w a b))) in *.
      assert (Hn : (n == rate * (n * period))%Q)
        by (rewrite (Qmult_comm n), Qmult_assoc, Hrp; ring).
      rewrite Hn.
      assert (rate * (n * period) <= rate * (b - a + period))%Q
        by (apply Qmult_le_l; assumption).
      assert (rate * (b - a + period) == rate * (b - a) + 1)%Q
        by (rewrite <- Hrp; ring).
      lra. }
  split; [exact Hsp|]. split; [exact Hup|].
  intros a b Ha Hab Hb. unfold within_one_unit.
  apply Qabs_Qle_condition. split; [|specialize (Hup a b Hab); lra].
  assert (Hlow : (b - a - period <=
            inject_Z (Z.of_nat (attempts_within w a b)) * period)%Q).
  { unfold attempts_within.
    destruct (spaced_window_lower a b period (Qlt_le_weak _ _ Hpos)
                (requested w) t0 Hsp Hb) as [H|H]; lra. }
  set (n := inject_Z (Z.of_nat (attempts_within w a b))) in *.
  assert (Hn : (n == rate * (n * period))%Q)
    by (rewrite (Qmult_comm n), Qmult_assoc, Hrp; ring).
  assert (rate * (b - a - period) <= rate * (n * period))%Q
    by (apply Qmult_le_l; assumption).
  assert (rate * (b - a - period) == rate * (b - a) - 1)%Q
    by (rewrite <- Hrp; ring).
  lra.
Qed.

Lemma quick_fetches_keep_the_rate_witness :
  let url := "http://192.168.4.1/capture.jpg"%string in
  let P := Lab.platform_of [] (Lab.ok (3 # 100) (Lab.jpeg Init.Byte.x0b)) in
  let w := snd (fetcher P url 150 (1 # 2) 1 10 (boot 0)) in
  quick P url (1 # 2) 1 (1 / Py.max (1 # 10) 10) 150 /\
  List.length (requested w) = 5%nat /\
  attempts_within w (1 # 10) (3 # 10) = 2%nat /\
  within_one_unit (attempts_within w (1 # 10) (3 # 10))
                  (Py.max (1 # 10) 10) ((3 # 10) - (1 # 10)).
Proof.
  intros url P w.
  assert (Hq : quick P url (1 # 2) 1 (1 / Py.max (1 # 10) 10) 150).
  { intros k _. destruct k; split;
      solve [vm_compute; reflexivity | vm_compute; discriminate]. }
  assert (Hlen : List.length (requested w) = 5%nat)
    by (vm_compute; reflexivity).
  pose proof (quick_fetches_keep_the_rate P url 150 (1 # 2) 1 10 0 Hq)
    as H.
  cbv zeta in H. destruct H as (_ & _ & Hwin).
  split; [exact Hq|]. split; [exact Hlen|].
  split; [vm_compute; reflexivity|].
  apply Hwin.
  - vm_compute. discriminate.
  - vm_compute. discriminate.
  - fold url P w. rewrite Hlen. vm_compute. discriminate.
Defined.

(** X17. Whatever the camera does, the poller never fetches ahead of
    its schedule: the [k]-th fetch (counting from 0) does not start before
    [t0 + k * period], so by the time [t0 + W] at most [W / period + 1]
    fetches have started; and a pass that finds the clock at or past the
    due time fetches at once and moves the due time by one period. *)
Theorem fetches_never_early (P : platform) (url : string) (passes : nat)
  (ct rt target_fps t0 : Q) :
  exists period : Q,
    fetcher_period target_fps = Ret period /\
    (0 < period)%Q /\
    exists (st : fetcher_state) (w : world),
      fetcher P url passes ct rt target_fps (boot t0) = (Ret st, w) /\
      (forall (k : nat) (t : Q),
          nth_error (requested w) k = Some t ->
          (t0 + inject_Z (Z.of_nat k) * period <= t)%Q) /\
      (forall (k : nat) (t W : Q),
          nth_error (requested w) k = Some t ->
          (t <= t0 + W)%Q ->
          (inject_Z (Z.of_nat k) * period <= W)%Q) /\
      exists (st' : fetcher_state) (w' : world),
        fetcher_iteration P url ct rt period st w = (Ret st', w') /\
        (Qltb (clock w) (t_next st) = false ->
         requested w' = (requested w ++ [clock w])%list /\
         t_next st' = (t_next st + period)%Q).
Proof.
  destruct (fetcher_period_run target_fps) as (Hp & _ & Hpos & _).
  exists (1 / Py.max (1 # 10) target_fps)%Q.
  split; [exact Hp|]. split; [exact Hpos|].
  set (period := (1 / Py.max (1 # 10) target_fps)%Q) in *.
  rewrite (fetcher_unfold P url passes ct rt target_fps period t0 Hp).
  destruct (fetcher_loop_paced P url ct rt period t0 passes _ _
              (paced_at_start t0 period))
    as (st & w & Hrun & _ & _ & _ & Hdue).
  exists st, w. split; [exact Hrun|]. split; [exact Hdue|].
  split.
  - intros k t W Hk Ht. specialize (Hdue k t Hk). lra.
  - rewrite fetcher_iteration_run.
    destruct (Qltb (clock w) (t_next st)).
    + eexists; eexists; split; [reflexivity|]. discriminate.
    + destruct (poller_outcome P url ct rt (served w)) as [[f|]|e];
        eexists; eexists; (split; [reflexivity|]); intros _;
        (split; [|reflexivity]).
      * unfold requested, history. cbn [log set_items].
        fold (history (got P url (TimeoutPair ct rt) w)).
        fold (requested (got P url (TimeoutPair ct rt) w)).
        apply requested_after_get.
      * rewrite requested_after_sleep. apply requested_after_get.
      * rewrite requested_after_sleep. apply requested_after_get.
Qed.

(** ** The poller's thread *)

Lemma fetcher_loop_returns (P : platform) (url : string)
  (ct rt period : Q) (n : nat) :
  forall (st : fetcher_state) (w : world),
    exists st' w',
      fetcher_loop P url ct rt period n st w = (Ret st', w').
Proof.
  induction n as [|n IH]; intros st w.
  - exists st, w. reflexivity.
  - cbn [fetcher_loop]. unfold bind. rewrite fetcher_iteration_run.
    destruct (Qltb (clock w) (t_next st)); [apply IH|].
    destruct (poller_outcome P url ct rt (served w)) as [[f|]|e];
      apply IH.
Qed.

(** X7. No exception ever leaves the poller's thread: whatever the
    camera, the decoder and the queue do, and however long the loop runs,
    [fetcher] is still running (it returns only when the stop event
    ends its loop). *)
Theorem fetcher_never_raises (P : platform) (url : string) (passes : nat)
  (ct rt target_fps : Q) (w : world) :
  exists (st' : fetcher_state) (w' : world),
    fetcher P url passes ct rt target_fps w = (Ret st', w').
Proof.
  destruct (fetcher_period_run target_fps) as (Hp & _).
  unfold fetcher, bind, lift, time_now. rewrite Hp.
  apply fetcher_loop_returns.
Qed.

Lemma slept_after_sleep (site site' : sleep_site) (d : Q) (w : world) :
  slept site (snd (sleep site' d w)) =
    (slept site w ++ if site_eqb site' site then [d] else [])%list.
Proof.
  unfold sleep, slept, history. cbn [snd log rev].
  rewrite pick_app. cbn [pick is_sleep].
  destruct (site_eqb site' site); reflexivity.
Qed.

Lemma slept_after_get (site : sleep_site) (P : platform) (url : string)
  (t : timeout_arg) (w : world) :
  slept site (got P url t w) = slept site w.
Proof.
  unfold slept, history. cbn [got log rev]. rewrite pick_app.
  cbn [pick is_sleep]. apply app_nil_r.
Qed.

(** X8. Every sleep of the poller has a sound duration: while waiting
    for the due time it sleeps more than 0 and at most 2 ms at a time, and
    after a failed fetch it sleeps at least 0.05 s and at most 0.5 s.
    [time.sleep] is never called with a negative or zero argument. *)
Theorem poller_sleeps_are_bounded (P : platform) (url : string)
  (passes : nat) (ct rt target_fps t0 : Q) :
  let w := snd (fetcher P url passes ct rt target_fps (boot t0)) in
  Forall (fun d => (0 < d)%Q /\ (d <= 2 # 1000)%Q) (slept PollerPace w) /\
  Forall (fun d => (1 # 20 <= d)%Q /\ (d <= 1 # 2)%Q)
         (slept PollerBackoff w).
Proof.
  cbv zeta.
  destruct (fetcher_period_run target_fps) as (Hp & _).
  rewrite (fetcher_unfold P url passes ct rt target_fps _ t0 Hp).
  set (period := (1 / Py.max (1 # 10) target_fps)%Q).
  assert (Hloop : forall n st w,
    (0 <= backoff st)%Q ->
    Forall (fun d => (0 < d)%Q /\ (d <= 2 # 1000)%Q) (slept PollerPace w) ->
    Forall (fun d => (1 # 20 <= d)%Q /\ (d <= 1 # 2)%Q)
           (slept PollerBackoff w) ->
    let w' := snd (fetcher_loop P url ct rt period n st w) in
    Forall (fun d => (0 < d)%Q /\ (d <= 2 # 1000)%Q) (slept PollerPace w') /\
    Forall (fun d => (1 # 20 <= d)%Q /\ (d <= 1 # 2)%Q)
           (slept PollerBackoff w')).
  { induction n as [|n IH]; intros st w Hb Hpace Hback; cbv zeta.
    - split; assumption.
    - cbn [fetcher_loop]. unfold bind. rewrite fetcher_iteration_run.
      destruct (Qltb (clock w) (t_next st)) eqn:Edue.
      + apply Qltb_true in Edue. apply IH; [exact Hb| |].
        * rewrite slept_after_sleep. cbn [site_eqb].
          apply Forall_app. split; [exact Hpace|].
          constructor; [|constructor].
          destruct (py_min_cases (2 # 1000) (t_next st - clock w)%Q)
            as [[-> H]|[-> H]]; split; lra.
        * rewrite slept_after_sleep. cbn [site_eqb].
          rewrite app_nil_r. exact Hback.
      + assert (Hgrow :
          (1 # 20 <= Py.min (1 # 2) (backoff st + (5 # 100)))%Q /\
          (Py.min (1 # 2) (backoff st + (5 # 100)) <= 1 # 2)%Q).
        { destruct (py_min_cases (1 # 2) (backoff st + (5 # 100))%Q)
            as [[-> H]|[-> H]]; split; lra. }
        assert (Hfail : forall w1,
          slept PollerPace w1 = slept PollerPace w ->
          slept PollerBackoff w1 = slept PollerBackoff w ->
          let w2 := snd (sleep PollerBackoff
                           (Py.min (1 # 2) (backoff st + (5 # 100))%Q) w1) in
          Forall (fun d => (0 < d)%Q /\ (d <= 2 # 1000)%Q)
                 (slept PollerPace w2) /\
          Forall (fun d => (1 # 20 <= d)%Q /\ (d <= 1 # 2)%Q)
                 (slept PollerBackoff w2)).
        { intros w1 H1 H2. cbv zeta. rewrite !slept_after_sleep.
          cbn [site_eqb]. rewrite app_nil_r, H1, H2.
          split; [exact Hpace|]. apply Forall_app. split; [exact Hback|].
          constructor; [exact Hgrow|constructor]. }
        destruct (poller_outcome P url ct rt (served w)) as [[f|]|e].
        * apply IH; cbn [backoff]; [lra| |].
          -- unfold slept, history. cbn [log set_items].
             fold (history (got P url (TimeoutPair ct rt) w)).
             fold (slept PollerPace (got P url (TimeoutPair ct rt) w)).
             rewrite slept_after_get. exact Hpace.
          -- unfold slept, history. cbn [log set_items].
             fold (history (got P url (TimeoutPair ct rt) w)).
             fold (slept PollerBackoff (got P url (TimeoutPair ct rt) w)).
             rewrite slept_after_get. exact Hback.
        * destruct (Hfail (got P url (TimeoutPair ct rt) w))
            as [Hp' Hb']; try apply slept_after_get.
          apply IH; cbn [backoff]; [lra|exact Hp'|exact Hb'].
        * destruct (Hfail (got P url (TimeoutPair ct rt) w))
            as [Hp' Hb']; try apply slept_after_get.
          apply IH; cbn [backoff]; [lra|exact Hp'|exact Hb']. }
  apply Hloop; [cbn; lra|constructor|constructor].
Qed.

(** X9. As long as nobody consumes, the queue of the poller holds
    exactly the frame of its latest successful fetch (nothing before
    the first success): a success replaces the frame, a failure leaves
    the stale frame where it is. *)
Theorem queue_holds_latest_success (P : platform) (url : string)
  (passes : nat) (ct rt target_fps t0 : Q) :
  let w := snd (fetcher P url passes ct rt target_fps (boot t0)) in
  items (queue w) = latest_success P url ct rt (served w) /\
  (served w <= passes)%nat.
Proof.
  cbv zeta.
  destruct (fetcher_period_run target_fps) as (Hp & _).
  rewrite (fetcher_unfold P url passes ct rt target_fps _ t0 Hp).
  set (period := (1 / Py.max (1 # 10) target_fps)%Q).
  assert (Hloop : forall n st w,
    items (queue w) = latest_success P url ct rt (served w) ->
    let w' := snd (fetcher_loop P url ct rt period n st w) in
    items (queue w') = latest_success P url ct rt (served w') /\
    (served w' <= served w + n)%nat).
  { induction n as [|n IH]; intros st w Hq; cbv zeta.
    - split; [exact Hq|cbn; lia].
    - cbn [fetcher_loop]. unfold bind. rewrite fetcher_iteration_run.
      destruct (Qltb (clock w) (t_next st)).
      + destruct (IH st (snd (sleep PollerPace
                    (Py.min (2 # 1000) (t_next st - clock w)%Q) w)))
          as [H1 H2]; [exact Hq|].
        split; [exact H1|]. cbn [sleep snd served] in H2 |- *. lia.
      + destruct (poller_outcome P url ct rt (served w)) as [[f|]|e] eqn:Eo.
        * match goal with
          | |- context [fetcher_loop _ _ _ _ _ n ?s ?w1] =>
              destruct (IH s w1) as [H1 H2]
          end.
          { cbn [set_items got queue items served latest_success].
            rewrite Eo. reflexivity. }
          split; [exact H1|]. cbn [set_items got served] in H2 |- *. lia.
        * match goal with
          | |- context [fetcher_loop _ _ _ _ _ n ?s ?w1] =>
              destruct (IH s w1) as [H1 H2]
          end.
          { cbn [sleep snd got queue items served latest_success].
            rewrite Eo. exact Hq. }
          split; [exact H1|]. cbn [sleep snd got served] in H2 |- *. lia.
        * match goal with
          | |- context [fetcher_loop _ _ _ _ _ n ?s ?w1] =>
              destruct (IH s w1) as [H1 H2]
          end.
          { cbn [sleep snd got queue items served latest_success].
            rewrite Eo. exact Hq. }
          split; [exact H1|]. cbn [sleep snd got served] in H2 |- *. lia. }
  destruct (Hloop passes (fetcher_start t0) (boot t0) eq_refl) as [H1 H2].
  split; [exact H1|]. cbn [boot served] in H2. lia.
Qed.

(** ** What the consumer can receive *)

Lemma subseq_refl {A : Type} (l : list A) : subseq l l.
Proof. induction l; constructor; assumption. Qed.

Lemma subseq_skip_prefix {A : Type} (p l1 l2 : list A) :
  subseq l1 l2 -> subseq l1 (p ++ l2)%list.
Proof.
  intros H. induction p as [|x p IH]; [exact H|].
  cbn [app]. apply subseq_drop. exact IH.
Qed.

Lemma queue_ops_subseq (os : list queue_op) :
  forall w : world,
    subseq (polled os w ++ items (queue (run_ops os w)))%list
           (items (queue w) ++ offered os w)%list.
Proof.
  unfold run_ops.
  induction os as [|o os IH]; intros w.
  - cbn. rewrite app_nil_r. apply subseq_refl.
  - cbn [fold_left polled offered].
    specialize (IH (run_op o w)). revert IH.
    destruct o as [f| |f|]; cbn [run_op].
    + (* publish *)
      rewrite publish_run. cbn [snd set_items queue items].
      intros IH. apply subseq_skip_prefix. exact IH.
    + (* the producer takes one frame away *)
      unfold get_nowait.
      destruct (items (queue w)) as [|x rest] eqn:E; cbn [fst snd].
      * rewrite E. tauto.
      * cbn [set_items queue items]. intros IH.
        cbn [app]. apply subseq_drop. exact IH.
    + (* put_nowait *)
      unfold put_nowait. cbv zeta.
      destruct (andb (0 <? maxsize (queue w))
                     (maxsize (queue w)
                      <=? Z.of_nat (List.length (items (queue w)))));
        cbn [fst snd].
      * tauto.
      * cbn [set_items queue items]. rewrite <- app_assoc. cbn [app].
        tauto.
    + (* the consumer polls *)
      rewrite poll_run.
      destruct (items (queue w)) as [|x rest] eqn:E; cbn [fst snd].
      * rewrite E. tauto.
      * cbn [set_items queue items]. intros IH.
        cbn [app]. apply subseq_keep. exact IH.
Qed.

(** X10. However the operations of the two threads on the queue
    interleave, the frames the consumer receives, followed by what is
    still in the queue, are the frames the producer put in, in the same
    order, with some left out: the consumer never receives a frame twice,
    out of order, or one that was not put. *)
Theorem consumer_sees_puts_in_order (os : list queue_op) (t0 : Q) :
  subseq (polled os (boot t0) ++ items (queue (run_ops os (boot t0))))%list
         (offered os (boot t0)).
Proof. exact (queue_ops_subseq os (boot t0)). Qed.

Example polls_between_publishes :
  let a := Lab.img Init.Byte.x01 in
  let b := Lab.img Init.Byte.x02 in
  let c := Lab.img Init.Byte.x03 in
  let os := [OpPublish a; OpPublish b; OpPoll; OpPoll; OpPublish c] in
  offered os (boot 0) = [a; b; c] /\
  polled os (boot 0) = [b] /\
  items (queue (run_ops os (boot 0))) = [c].
Proof. vm_compute. repeat split. Qed.

(** ** The live viewer *)

Lemma land_255 (k : Z) : Z.land k 255 = k mod 256.
Proof.
  change 255 with (Z.ones 8). rewrite Z.land_ones by lia. reflexivity.
Qed.

Lemma viewer_iteration_plain (P : platform)
  (put_text : ndarray -> Q -> ndarray) (args : viewer_args)
  (st : viewer_state) (inp : viewer_input) :
  resize_width args = 0 ->
  show_fps args = false ->
  viewer_iteration P put_text args st inp =
    Ret (st, in_frame inp, quit_key (in_key inp)).
Proof.
  intros Hw Hf. unfold viewer_iteration, fit_to_width, quit_key.
  rewrite Hw, Hf, land_255. cbn [Z.eqb negb andb].
  destruct (in_frame inp); reflexivity.
Qed.

(** X11. With no [--resize_width] and no [--show_fps] the viewer never
    fails: it shows every frame it receives, once, unaltered and in
    order, carries on through any number of empty polls, and stops at the
    first key whose code modulo 256 is 113 ([q]) or 27 (ESC), setting the
    stop event; "no key" (-1) and [Q] do not stop it. *)
Theorem viewer_shows_what_it_receives (P : platform)
  (put_text : ndarray -> Q -> ndarray) (args : viewer_args) (t_start : Q)
  (inputs : list viewer_input) :
  resize_width args = 0 ->
  show_fps args = false ->
  let r := viewer_main P put_text args t_start inputs in
  ending r = (if existsb (fun i => quit_key (in_key i)) inputs
              then Quit else Running) /\
  screen r = received (until_quit inputs) /\
  stop_evt_set r = existsb (fun i => quit_key (in_key i)) inputs /\
  quit_key (-1) = false /\ quit_key 81 = false /\
  quit_key 113 = true /\ quit_key 27 = true.
Proof.
  intros Hw Hf. cbv zeta.
  assert (Hloop : forall st,
    let r := viewer_loop P put_text args inputs st in
    fst (fst r) = (if existsb (fun i => quit_key (in_key i)) inputs
                   then Quit else Running) /\
    snd (fst r) = received (until_quit inputs)).
  { induction inputs as [|inp rest IH]; intros st; cbv zeta.
    - split; reflexivity.
    - cbn [viewer_loop existsb until_quit].
      rewrite (viewer_iteration_plain P put_text args st inp Hw Hf).
      destruct (quit_key (in_key inp)); cbn [orb fst snd received].
      + split; [reflexivity|].
        destruct (in_frame inp); reflexivity.
      + destruct (IH st) as [H1 H2]. split; [exact H1|].
        rewrite H2. destruct (in_frame inp); reflexivity. }
  unfold ending, screen, stop_evt_set, viewer_main. cbn [fst snd].
  destruct (Hloop {| ema_fps := None; t_prev := t_start |}) as [H1 H2].
  rewrite H1, H2.
  split; [reflexivity|]. split; [reflexivity|].
  split; [destruct (existsb _ inputs); reflexivity|].
  repeat split.
Qed.

Lemma viewer_shows_what_it_receives_witness :
  let args := {| window := "IP Camera"; show_fps := false;
                 resize_width := 0 |} in
  let a := Lab.img Init.Byte.x01 in
  let b := Lab.img Init.Byte.x02 in
  let inputs :=
    [ {| in_frame := Some a; in_now := 1; in_key := -1 |};
      {| in_frame := None; in_now := 2; in_key := 81 |};
      {| in_frame := Some b; in_now := 3; in_key := 113 + 256 |};
      {| in_frame := Some a; in_now := 4; in_key := -1 |} ] in
  let r := viewer_main (Lab.platform_of [] (Lab.timed_out 1))
                       (fun f _ => f) args 0 inputs in
  ending r = Quit /\ screen r = [a; b] /\ stop_evt_set r = true.
Proof.
  intros args a b inputs.
  pose proof (viewer_shows_what_it_receives
                (Lab.platform_of [] (Lab.timed_out 1)) (fun f _ => f)
                args 0 inputs eq_refl eq_refl) as H.
  cbv zeta in H. destruct H as (H1 & H2 & H3 & _).
  repeat split; assumption.
Defined.

Lemma int_of_float_nonneg (x : Q) :
  (0 <= x)%Q -> int_of_float x = Qfloor x.
Proof.
  intros H. unfold int_of_float.
  apply Qle_bool_iff in H. rewrite H. reflexivity.
Qed.

(** X12. The viewer's resize only ever scales down and keeps the
    aspect ratio: with a positive [--resize_width], a frame that is not
    wider is left as it is, and a wider frame comes back with exactly
    that width and with the height [floor(rows * width / cols)], which is
    not larger than the original height. *)
Theorem fit_to_width_scales_down (P : platform) (args : viewer_args)
  (f g : ndarray) :
  resize_contract P ->
  0 < resize_width args ->
  0 <= rows f ->
  fit_to_width P args f = Ret g ->
  (cols f <= resize_width args /\ g = f) \/
  (resize_width args < cols f /\
   cols g = resize_width args /\
   rows g * cols f <= rows f * resize_width args
     < (rows g + 1) * cols f /\
   rows g <= rows f).
Proof.
  intros HP Hw Hrows Hfit. unfold fit_to_width in Hfit.
  assert (Hnz : (resize_width args =? 0) = false)
    by (apply Z.eqb_neq; lia).
  rewrite Hnz in Hfit. cbn [negb andb] in Hfit.
  destruct (resize_width args <? cols f) eqn:Ewide.
  - apply Z.ltb_lt in Ewide. right.
    assert (Hcols : 0 < cols f) by lia.
    unfold Py.div in Hfit.
    destruct (Qeq_bool (inject_Z (cols f)) 0) eqn:Ez.
    { apply Qeq_bool_iff in Ez. change 0%Q with (inject_Z 0) in Ez.
      rewrite inject_Z_injective in Ez. lia. }
    cbn [and_then] in Hfit.
    set (h := (inject_Z (rows f * resize_width args)
               / inject_Z (cols f))%Q) in *.
    assert (Hcq : (0 < inject_Z (cols f))%Q)
      by (change 0%Q with (inject_Z 0); rewrite <- Zlt_Qlt; exact Hcols).
    assert (Hh0 : (0 <= h)%Q).
    { unfold h. apply Qle_shift_div_l; [exact Hcq|].
      rewrite Qmult_0_l. change 0%Q with (inject_Z 0).
      rewrite <- Zle_Qle. nia. }
    rewrite (int_of_float_nonneg h Hh0) in Hfit.
    destruct (cv2_resize P f (resize_width args, Qfloor h)) as [g'|] eqn:Er;
      [|discriminate].
    injection Hfit as <-.
    apply HP in Er. unfold size_of in Er.
    assert (Hc : cols g' = resize_width args)
      by exact (f_equal fst Er).
    assert (Hr : rows g' = Qfloor h) by exact (f_equal snd Er).
    assert (Hlo : (inject_Z (Qfloor h) <= h)%Q) by apply Qfloor_le.
    assert (Hhi : (h < inject_Z (Qfloor h + 1))%Q) by apply Qlt_floor.
    assert (Hmul : (h * inject_Z (cols f)
                    == inject_Z (rows f * resize_width args))%Q).
    { unfold h. field. intros Hbad. rewrite Hbad in Hcq.
      exact (Qlt_irrefl 0 Hcq). }
    assert (H1 : Qfloor h * cols f <= rows f * resize_width args).
    { assert (Hq : (inject_Z (Qfloor h) * inject_Z (cols f)
                    <= inject_Z (rows f * resize_width args))%Q).
      { rewrite <- Hmul. apply Qmult_le_compat_r; [exact Hlo|].
        apply Qlt_le_weak. exact Hcq. }
      rewrite <- inject_Z_mult in Hq. rewrite Zle_Qle. exact Hq. }
    assert (H2 : rows f * resize_width args < (Qfloor h + 1) * cols f).
    { assert (Hq : (inject_Z (rows f * resize_width args)
                    < inject_Z (Qfloor h + 1) * inject_Z (cols f))%Q).
      { rewrite <- Hmul. apply Qmult_lt_compat_r; [exact Hcq|exact Hhi]. }
      rewrite <- inject_Z_mult in Hq. rewrite Zlt_Qlt. exact Hq. }
    rewrite Hr. split; [exact Ewide|]. split; [exact Hc|].
    split; [split; assumption|]. nia.
  - apply Z.ltb_ge in Ewide. injection Hfit as <-.
    left. split; [exact Ewide|reflexivity].
Qed.

Lemma fit_to_width_scales_down_witness :
  let args := {| window := "IP Camera"; show_fps := false;
                 resize_width := 2 |} in
  let f := Lab.wide Init.Byte.x07 in
  fit_to_width (Lab.platform_of [] (Lab.timed_out 1)) args
               {| rows := 3; cols := 4; data := [] |}
    = Ret {| rows := 1; cols := 2; data := [] |} /\
  1 * 4 <= 3 * 2 < (1 + 1) * 4.
Proof.
  intros args f.
  assert (Hrun : fit_to_width (Lab.platform_of [] (Lab.timed_out 1)) args
                   {| rows := 3; cols := 4; data := [] |}
                 = Ret {| rows := 1; cols := 2; data := [] |})
    by (vm_compute; reflexivity).
  split; [exact Hrun|].
  destruct (fit_to_width_scales_down
              (Lab.platform_of [] (Lab.timed_out 1)) args
              {| rows := 3; cols := 4; data := [] |}
              {| rows := 1; cols := 2; data := [] |}
              (lab_resize_contract _ _) ltac:(cbn; lia) ltac:(cbn; lia) Hrun)
    as [(Hle & _)|(_ & _ & Hasp & _)].
  - cbn in Hle. lia.
  - exact Hasp.
Defined.

Lemma viewer_iteration_fits (P : platform)
  (put_text : ndarray -> Q -> ndarray) (args : viewer_args)
  (st st' : viewer_state) (inp : viewer_input) (g : ndarray) (q : bool) :
  resize_contract P ->
  text_keeps_size put_text ->
  0 < resize_width args ->
  viewer_iteration P put_text args st inp = Ret (st', Some g, q) ->
  cols g <= resize_width args.
Proof.
  intros HP HT Hw. unfold viewer_iteration.
  destruct (in_frame inp) as [f|]; cbn [and_then]; [|discriminate].
  destruct (fit_to_width P args f) as [f1|e] eqn:Efit; cbn [and_then];
    [|discriminate].
  assert (Hf1 : cols f1 <= resize_width args).
  { revert Efit. unfold fit_to_width.
    assert (Hnz : (resize_width args =? 0) = false)
      by (apply Z.eqb_neq; lia).
    rewrite Hnz. cbn [negb andb].
    destruct (resize_width args <? cols f) eqn:Ewide.
    - destruct (Py.div _ _) as [h|e]; cbn [and_then]; [|discriminate].
      destruct (cv2_resize P f (resize_width args, int_of_float h))
        as [g'|] eqn:Er; [|discriminate].
      intros H. injection H as <-. apply HP in Er.
      unfold size_of in Er. injection Er as Hc _. lia.
    - apply Z.ltb_ge in Ewide. intros H. injection H as <-. exact Ewide. }
  destruct (show_fps args).
  - unfold overlay_fps.
    destruct (Py.div _ _) as [inst|e]; cbn [and_then fst snd];
      [|discriminate].
    intros H. injection H as _ <- _.
    pose proof (HT f1 (match ema_fps st with
                       | Some e => (9 # 10) * e + (1 # 10) * inst
                       | None => inst
                       end)%Q) as Hsz.
    unfold size_of in Hsz. injection Hsz as Hc _. lia.
  - cbn [and_then fst snd]. intros H. injection H as _ <- _. exact Hf1.
Qed.

(** X13. With a positive [--resize_width], no frame wider than that
    width ever reaches the screen, with or without the frame-rate
    overlay, provided [cv2.resize] returns the size it is asked for and
    [cv2.putText] does not change the shape of the frame. *)
Theorem viewer_frames_fit (P : platform)
  (put_text : ndarray -> Q -> ndarray) (args : viewer_args) (t_start : Q)
  (inputs : list viewer_input) :
  resize_contract P ->
  text_keeps_size put_text ->
  0 < resize_width args ->
  Forall (fun g => cols g <= resize_width args)
         (screen (viewer_main P put_text args t_start inputs)).
Proof.
  intros HP HT Hw. unfold screen, viewer_main. cbn [fst snd].
  generalize {| ema_fps := None; t_prev := t_start |}.
  induction inputs as [|inp rest IH]; intros st; cbn [viewer_loop].
  - constructor.
  - destruct (viewer_iteration P put_text args st inp)
      as [[[st' shown] q]|e] eqn:Eit; [|constructor].
    assert (Hnow : Forall (fun g => cols g <= resize_width args)
                          match shown with Some f => [f] | None => [] end).
    { destruct shown as [g|]; [|constructor].
      constructor; [|constructor].
      exact (viewer_iteration_fits P put_text args st st' inp g q
                                   HP HT Hw Eit). }
    destruct q; cbn [fst snd]; [exact Hnow|].
    apply Forall_app. split; [exact Hnow|apply IH].
Qed.

Lemma viewer_frames_fit_witness :
  let args := {| window := "IP Camera"; show_fps := true;
                 resize_width := 2 |} in
  let inputs :=
    [ {| in_frame := Some {| rows := 3; cols := 4; data := [] |};
         in_now := 1; in_key := -1 |};
      {| in_frame := Some (Lab.img Init.Byte.x02); in_now := 2;
         in_key := 27 |} ] in
  let r := viewer_main (Lab.platform_of [] (Lab.timed_out 1))
                       (fun f _ => f) args 0 inputs in
  List.length (screen r) = 2%nat /\
  Forall (fun g => cols g <= 2) (screen r).
Proof.
  intros args inputs.
  split; [vm_compute; reflexivity|].
  apply (viewer_frames_fit (Lab.platform_of [] (Lab.timed_out 1))
           (fun f _ => f) args 0 inputs (lab_resize_contract _ _)).
  - intros f q. reflexivity.
  - cbn. lia.
Defined.

Lemma overlay_fps_run (put_text : ndarray -> Q -> ndarray)
  (st : viewer_state) (now : Q) (f : ndarray) :
  fps_estimate_ok st ->
  exists (e : Q),
    overlay_fps put_text st now f =
      Ret ({| ema_fps := Some e; t_prev := now |}, put_text f e) /\
    (0 < e)%Q /\ (e <= 1000000)%Q.
Proof.
  intros Hok. unfold overlay_fps.
  set (dt := Py.max (now - t_prev st) (1 # 1000000)).
  assert (Hdt : ((1 # 1000000) <= dt)%Q).
  { unfold dt, Py.max.
    destruct (Qltb (now - t_prev st) (1 # 1000000)) eqn:E.
    - apply Qle_refl.
    - apply Qltb_false in E. exact E. }
  assert (Hpos : (0 < dt)%Q) by lra.
  rewrite (py_div_positive dt Hpos). cbn [and_then].
  assert (Hinst : (0 < 1 / dt)%Q /\ (1 / dt <= 1000000)%Q).
  { split.
    - unfold Qdiv. rewrite Qmult_1_l. apply Qinv_lt_0_compat. exact Hpos.
    - apply Qle_shift_div_r; [exact Hpos|]. lra. }
  destruct Hinst as [Hi0 Hi1].
  unfold fps_estimate_ok in Hok.
  destruct (ema_fps st) as [e|].
  - exists ((9 # 10) * e + (1 # 10) * (1 / dt))%Q.
    split; [reflexivity|]. destruct Hok as [He0 He1].
    set (inst := (1 / dt)%Q) in *. split; lra.
  - exists (1 / dt)%Q. split; [reflexivity|]. split; assumption.
Qed.

Lemma viewer_iteration_estimate (P : platform)
  (put_text : ndarray -> Q -> ndarray) (args : viewer_args)
  (st st' : viewer_state) (inp : viewer_input) shown q :
  fps_estimate_ok st ->
  viewer_iteration P put_text args st inp = Ret (st', shown, q) ->
  fps_estimate_ok st'.
Proof.
  intros Hok. unfold viewer_iteration.
  destruct (in_frame inp) as [f|]; cbn [and_then].
  - destruct (fit_to_width P args f) as [f1|e]; cbn [and_then];
      [|discriminate].
    destruct (show_fps args).
    + destruct (overlay_fps_run put_text st (in_now inp) f1 Hok)
        as (e & -> & He0 & He1).
      cbn [and_then fst snd]. intros H. injection H as <- _ _.
      split; assumption.
    + cbn [and_then fst snd]. intros H. injection H as <- _ _. exact Hok.
  - cbn [fst snd]. intros H. injection H as <- _ _. exact Hok.
Qed.

(** X14. The frame-rate overlay cannot fail and cannot show a
    nonsensical number: the time between two frames is clamped to at
    least a microsecond, so the division is always defined, and the
    smoothed rate kept by the viewer is, from the first frame on,
    positive and at most 1,000,000, however the clock readings fall
    (equal, or going backwards). *)
Theorem viewer_fps_estimate_is_bounded (P : platform)
  (put_text : ndarray -> Q -> ndarray) (args : viewer_args) (t_start : Q)
  (inputs : list viewer_input) :
  fps_estimate_ok
    (final_state (viewer_main P put_text args t_start inputs)) /\
  forall (st : viewer_state) (now : Q) (f : ndarray),
    fps_estimate_ok st ->
    exists e : Q,
      overlay_fps put_text st now f =
        Ret ({| ema_fps := Some e; t_prev := now |}, put_text f e) /\
      (0 < e)%Q /\ (e <= 1000000)%Q.
Proof.
  split; [|intros st now f Hok; apply overlay_fps_run; exact Hok].
  unfold final_state, viewer_main. cbn [fst snd].
  assert (Hstart : fps_estimate_ok {| ema_fps := None; t_prev := t_start |})
    by exact I.
  revert Hstart. generalize {| ema_fps := None; t_prev := t_start |}.
  induction inputs as [|inp rest IH]; intros st Hok; cbn [viewer_loop].
  - exact Hok.
  - destruct (viewer_iteration P put_text args st inp)
      as [[[st' shown] q]|e] eqn:Eit; [|exact Hok].
    pose proof (viewer_iteration_estimate P put_text args st st' inp
                  shown q Hok Eit) as Hok'.
    destruct q; cbn [fst snd]; [exact Hok'|apply IH; exact Hok'].
Qed.

Example fps_estimate_with_a_stuck_clock :
  let args := {| window := "IP Camera"; show_fps := true;
                 resize_width := 0 |} in
  let inputs :=
    [ {| in_frame := Some (Lab.img Init.Byte.x01); in_now := 5;
         in_key := -1 |};
      {| in_frame := Some (Lab.img Init.Byte.x02); in_now := 5;
         in_key := -1 |} ] in
  let r := viewer_main (Lab.platform_of [] (Lab.timed_out 1))
                       (fun f _ => f) args 5 inputs in
  ending r = Running /\
  option_map Qred (ema_fps (final_state r)) = Some 1000000%Q.
Proof. vm_compute. repeat split. Qed.

(** ** What a fetched frame is *)


